(** * Shallow embedding of [server.js] (deal scraper) and its properties

    The development follows the source file top-down:
    - [JSString]: JavaScript strings as sequences of UTF-16 code units, with
      the string primitives the scraper calls ([trim], [split],
      [replace], the global regular-expression strip);
    - [JSNumber]: JavaScript numbers as IEEE 754 binary64 values
      (Rocq's primitive floats), [Math.round] and [parseFloat];
    - the body of [scrape]: price parsing, normalisation, the validity
      filter, the persistence loop and the try / catch / finally skeleton,
      with the browser and the storage client as explicit environments. *)

From Stdlib Require Import ZArith Floats.
From stdpp Require Import gmap list strings.

Set Warnings "-inexact-float".

(* ===================================================================== *)
(** ** JavaScript strings *)
(* ===================================================================== *)

Module JSString.

(** A string is the sequence of its UTF-16 code units. *)
Abbreviation jsstring := (list N).

(** Literals: the code units of an ASCII text. *)
Definition js (s : string) : jsstring :=
  (fun a => Ascii.N_of_ascii a) <$> String.list_ascii_of_string s.

Definition is_digit (c : N) : bool := ((48 <=? c) && (c <=? 57))%N.

Definition COMMA : N := 44.
Definition DOT : N := 46.
Definition QUESTION : N := 63.
Definition PLUS : N := 43.
Definition MINUS : N := 45.

(** WhiteSpace and LineTerminator code units (what [trim] removes). *)
Definition is_space (c : N) : bool :=
  ((9 <=? c) && (c <=? 13) || (c =? 32) || (c =? 160) || (c =? 5760)
   || (8192 <=? c) && (c <=? 8202) || (c =? 8232) || (c =? 8233)
   || (c =? 8239) || (c =? 8287) || (c =? 12288) || (c =? 65279))%N.

Fixpoint drop_while (f : N -> bool) (s : jsstring) : jsstring :=
  match s with
  | [] => []
  | c :: r => if f c then drop_while f r else s
  end.

(** [span f s]: the longest prefix whose units satisfy [f], and the rest. *)
Fixpoint span (f : N -> bool) (s : jsstring) : jsstring * jsstring :=
  match s with
  | [] => ([], [])
  | c :: r => if f c then let '(p, q) := span f r in (c :: p, q) else ([], s)
  end.

Definition trimStart (s : jsstring) : jsstring := drop_while is_space s.

(** [String.prototype.trim]. *)
Definition trim (s : jsstring) : jsstring :=
  reverse (drop_while is_space (reverse (drop_while is_space s))).

(** [s.replace(/[^0-9,]/g, '')]: every unit outside the class is dropped. *)
Definition strip_non_price (s : jsstring) : jsstring :=
  List.filter (fun c => is_digit c || (c =? COMMA)%N) s.

(** [s.replace(/[^0-9,.]/g, '')]: the class of the unused [cleanPrice]
    helper, which also keeps dots. *)
Definition strip_non_price_dot (s : jsstring) : jsstring :=
  List.filter (fun c => is_digit c || (c =? COMMA)%N || (c =? DOT)%N) s.

(** [s.replace(c, d)] with a one-unit string pattern: only the first
    occurrence is replaced. *)
Fixpoint replace_first (c d : N) (s : jsstring) : jsstring :=
  match s with
  | [] => []
  | x :: r => if (x =? c)%N then d :: r else x :: replace_first c d r
  end.

(** [s.split(sep)] with a one-unit separator. *)
Fixpoint split (sep : N) (s : jsstring) : list jsstring :=
  match s with
  | [] => [[]]
  | x :: r =>
      if (x =? sep)%N then [] :: split sep r
      else match split sep r with
           | h :: t => (x :: h) :: t
           | [] => [[x]]
           end
  end.

Fixpoint is_prefix (p s : jsstring) : bool :=
  match p, s with
  | [], _ => true
  | a :: p', b :: s' => (a =? b)%N && is_prefix p' s'
  | _ :: _, [] => false
  end.

(** The number written by a sequence of decimal digits. *)
Definition digits_value (ds : jsstring) : N :=
  fold_left (fun acc c => (10 * acc + (c - 48))%N) ds 0%N.

End JSString.
Export JSString.

(* ===================================================================== *)
(** ** JavaScript numbers *)
(* ===================================================================== *)

Module JSNumber.

(** The Number type is IEEE 754 binary64: Rocq's primitive [float]. *)
Abbreviation number := float.

Definition gt (x y : number) : bool := (y <? x)%float.      (* x > y *)
Definition ge (x y : number) : bool := (y <=? x)%float.     (* x >= y *)
Definition le (x y : number) : bool := (x <=? y)%float.     (* x <= y *)
Definition lt (x y : number) : bool := (x <? y)%float.      (* x < y *)
Definition strict_eq (x y : number) : bool := (x =? y)%float.  (* x === y *)

(** Conversion of an integer below 2^63 (exact below 2^53). *)
Definition of_int (n : Z) : number :=
  match n with
  | Z0 => 0%float
  | Zpos _ => of_uint63 (Uint63.of_Z n)
  | Zneg _ => (- of_uint63 (Uint63.of_Z (- n)))%float
  end.

(** [Math.round]: NaN, infinities, zeros and integers are returned as they
    are; any other [x] goes to [floor (x + 1/2)], computed exactly, and a
    zero result keeps the sign of [x]. *)
Definition Math_round (x : number) : number :=
  match Prim2SF x with
  | S754_finite s m e =>
      if (0 <=? e)%Z then x
      else
        let n := Z.shiftr (2 * cond_Zopp s (Zpos m) + 2 ^ (- e)) (1 - e) in
        match n with
        | Z0 => if s then neg_zero else zero
        | _ => of_int n
        end
  | _ => x
  end.

(** The Number value of [m * 10 ^ x]: the binary64 value nearest to it,
    ties to even. *)
Definition decimal_value (m : N) (x : Z) : number :=
  match m with
  | N0 => 0%float
  | Npos p =>
      if (0 <=? x)%Z
      then SF2Prim (binary_normalize prec emax (Zpos p * 10 ^ x) 0 false)
      else SF2Prim (SFdiv prec emax (S754_finite false p 0)
                      (S754_finite false (Z.to_pos (10 ^ (- x))) 0))
  end.

(** ExponentPart of a decimal literal: [e] or [E], an optional sign and
    digits; absent (value 0) when no digit follows. *)
Definition scan_exponent (r : jsstring) : Z :=
  match r with
  | c :: r' =>
      if ((c =? 101) || (c =? 69))%N then
        match r' with
        | sg :: r'' =>
            if (sg =? PLUS)%N then Z.of_N (digits_value (fst (span is_digit r'')))
            else if (sg =? MINUS)%N
                 then (- Z.of_N (digits_value (fst (span is_digit r''))))%Z
                 else Z.of_N (digits_value (fst (span is_digit r')))
        | [] => 0%Z
        end
      else 0%Z
  | [] => 0%Z
  end.

(** The longest prefix that is an unsigned decimal literal, as a mantissa
    and a power of ten; [None] when no prefix is one. *)
Definition scan_decimal (s : jsstring) : option (N * Z) :=
  let '(ip, r1) := span is_digit s in
  let '(fp, r2) :=
    match r1 with
    | c :: r => if (c =? DOT)%N then span is_digit r else ([], r1)
    | [] => ([], [])
    end in
  match ip ++ fp with
  | [] => None
  | ds => Some (digits_value ds, (scan_exponent r2 - Z.of_nat (length fp))%Z)
  end.

Definition parse_unsigned (neg : bool) (s : jsstring) : number :=
  if is_prefix (js "Infinity") s then (if neg then neg_infinity else infinity)
  else match scan_decimal s with
       | None => nan
       | Some (m, x) =>
           if neg then (- decimal_value m x)%float else decimal_value m x
       end.

(** The global [parseFloat] on a string argument. *)
Definition parseFloat (s : jsstring) : number :=
  match trimStart s with
  | c :: r =>
      if (c =? PLUS)%N then parse_unsigned false r
      else if (c =? MINUS)%N then parse_unsigned true r
      else parse_unsigned false (c :: r)
  | [] => nan
  end.

End JSNumber.
Export JSNumber.

(* ===================================================================== *)
(** ** The data of [scrape] *)
(* ===================================================================== *)

(** One object pushed by the in-page extraction (lines 98-104). *)
Module RawItem.
Record t := mk {
  title : jsstring;
  priceStr : jsstring;
  orgPriceStr : jsstring;
  link : jsstring;
  img : jsstring }.
End RawItem.

(** The object built by the [map] callback (lines 124-133). *)
Record Product := mkProduct {
  title : jsstring;
  price : number;
  original_price : number;
  discount_rate : number;
  image_url : jsstring;
  product_url : jsstring;
  platform : jsstring;
  external_id : jsstring }.

(** [parseTRPrice] of the [map] callback (lines 111-114). *)
Definition parseTRPrice (str : jsstring) : number :=
  match str with
  | [] => 0%float                                  (* if (!str) return 0 *)
  | _ => parseFloat (replace_first COMMA DOT (strip_non_price str))
  end.

(** Lines 119-122: the discount before rounding. *)
Definition discount (price orgPrice : number) : number :=
  if gt orgPrice price && gt orgPrice 0
  then ((orgPrice - price) / orgPrice * 100)%float
  else 0%float.

(** Lines 119-122 and 128: the [discount_rate] field. *)
Definition discountRate (price orgPrice : number) : number :=
  Math_round (discount price orgPrice).

(** Line 132: [p.link.split('?')[0]]; [split] never returns an empty
    array, so index 0 is always defined. *)
Definition externalId (link : jsstring) : jsstring :=
  hd [] (split QUESTION link).

(** The [map] callback (lines 110-133). *)
Definition normalize (platformKey : jsstring) (p : RawItem.t) : Product :=
  let price := parseTRPrice (RawItem.priceStr p) in
  let orgPrice := parseTRPrice (RawItem.orgPriceStr p) in
  let orgPrice := if strict_eq orgPrice 0 then price else orgPrice in
  {| title := trim (RawItem.title p);
     price := price;
     original_price := orgPrice;
     discount_rate := discountRate price orgPrice;
     image_url := RawItem.img p;
     product_url := RawItem.link p;
     platform := platformKey;
     external_id := externalId (RawItem.link p) |}.

(** The [filter] callback (line 134). *)
Definition isValid (p : Product) : bool :=
  ge (discount_rate p) 40 && gt (price p) 0 && (5 <? length (title p))%nat.

(** Lines 110-134. *)
Definition validProducts (platformKey : jsstring) (products : list RawItem.t)
  : list Product :=
  List.filter isValid (normalize platformKey <$> products).

(* ===================================================================== *)
(** ** The platform table *)
(* ===================================================================== *)

(** The fields of a [CONFIG] entry that [scrape] reads ([parser] is never
    called by it). *)
Record PlatformConfig := mkConfig { url : jsstring; selector : jsstring }.

(** The own properties of the [CONFIG] object literal (lines 10-62). *)
Definition CONFIG : gmap jsstring PlatformConfig :=
  {[ js "trendyol" :=
       mkConfig (js "https://www.trendyol.com/sr?wc=103328&fl=en-cok-one-cikanlar")
                (js ".p-card-wrppr");
     js "temu" :=
       mkConfig (js "https://www.temu.com/az/channel/lightning-deals.html")
                (js ".goods-item") ]}.

(** [CONFIG] is an ordinary object: a property that is not its own is looked
    up on [Object.prototype], whose properties are all functions or objects. *)
Definition Object_prototype : list jsstring :=
  js <$> [ "constructor"; "__proto__"; "hasOwnProperty"; "isPrototypeOf";
           "propertyIsEnumerable"; "toLocaleString"; "toString"; "valueOf";
           "__defineGetter__"; "__defineSetter__"; "__lookupGetter__";
           "__lookupSetter__" ]%string.

(** What [CONFIG[platformKey]] evaluates to when it is not [undefined]. *)
Inductive ConfigValue :=
| OwnEntry (c : PlatformConfig)
| Inherited (name : jsstring).

(** [CONFIG[platformKey]]; [None] is [undefined], the only falsy case. *)
Definition CONFIG_get (platformKey : jsstring) : option ConfigValue :=
  match CONFIG !! platformKey with
  | Some c => Some (OwnEntry c)
  | None =>
      if bool_decide (platformKey ∈ Object_prototype)
      then Some (Inherited platformKey)
      else None
  end.

(** [config.url] and [config.selector]; [None] is [undefined]. *)
Definition config_url (v : ConfigValue) : option jsstring :=
  match v with OwnEntry c => Some (url c) | Inherited _ => None end.
Definition config_selector (v : ConfigValue) : option jsstring :=
  match v with OwnEntry c => Some (selector c) | Inherited _ => None end.

(* ===================================================================== *)
(** ** Effects: the browser, the storage client, exceptions *)
(* ===================================================================== *)

(** A thrown [Error], of which the code reads [message]. *)
Record Error := mkError { message : jsstring }.

Inductive outcome (A : Type) :=
| Ok (a : A)
| Throw (e : Error).
Arguments Ok {A} a.
Arguments Throw {A} e.

(** The table [bot_scraper.products], unique on [(platform, external_id)]. *)
Abbreviation Store := (gmap (jsstring * jsstring) Product).

Definition key_of (p : Product) : jsstring * jsstring :=
  (platform p, external_id p).

(** What the awaited query resolves to: [{ data, error }]. [data] is [null]
    or an array of rows. *)
Record Reply := mkReply {
  data : option (list Product);
  error : option Error }.

(** The storage client: one awaited [upsert(...).select()] call, which may
    change the table, and resolves to a reply or throws. *)
Definition Client := Store -> Product -> outcome (Store * Reply).

(** The outcomes of the Playwright calls of one run. *)
Record Browser := mkBrowser {
  launch : outcome unit;
  newContext : outcome unit;
  newPage : outcome unit;
  goto : option jsstring -> outcome unit;
  scroll : outcome unit;
  waitForTimeout : outcome unit;
  extract : option jsstring -> outcome (list RawItem.t);
  close : outcome unit }.

(** What a run does to the outside world, in order ([console.log] lines
    are not recorded; [console.error] is, with the message it shows). *)
Inductive Event :=
| EvLaunch
| EvNewContext
| EvNewPage
| EvGoto (u : option jsstring)
| EvScroll
| EvWait
| EvExtract (sel : option jsstring)
| EvUpsert (prod : Product)
| EvConsoleError (msg : jsstring)
| EvClose.

(** State, output and exceptions: a computation runs from a table and
    yields a completion (normal or abrupt), the table it leaves and the
    events it caused; the table and the events survive a throw. *)
Definition M (A : Type) : Type := Store -> outcome A * Store * list Event.

Definition completion {A} (r : outcome A * Store * list Event) : outcome A := r.1.1.
Definition final_store {A} (r : outcome A * Store * list Event) : Store := r.1.2.
Definition trace {A} (r : outcome A * Store * list Event) : list Event := r.2.

Definition ret {A} (a : A) : M A := fun st => (Ok a, st, []).

Definition bind {A B} (m : M A) (k : A -> M B) : M B :=
  fun st =>
    let '(r, st', t1) := m st in
    match r with
    | Ok a => let '(r', st'', t2) := k a st' in (r', st'', t1 ++ t2)
    | Throw e => (Throw e, st', t1)
    end.

Notation "x <- m ;; k" := (bind m (fun x => k))
  (at level 100, m at next level, right associativity).
Notation "m ;;; k" := (bind m (fun _ => k))
  (at level 100, right associativity).

(** An external call: its event, then its outcome. *)
Definition call {A} (ev : Event) (o : outcome A) : M A :=
  fun st => (o, st, [ev]).

Definition try_catch {A} (body : M A) (handler : Error -> M A) : M A :=
  fun st =>
    let '(r, st', t1) := body st in
    match r with
    | Ok a => (Ok a, st', t1)
    | Throw e => let '(r', st'', t2) := handler e st' in (r', st'', t1 ++ t2)
    end.

(** [try { body } finally { fin }]: a throw of [fin] replaces the
    completion of [body]. *)
Definition finally {A} (body : M A) (fin : M unit) : M A :=
  fun st =>
    let '(r, st', t1) := body st in
    let '(rf, st'', t2) := fin st' in
    (match rf with Ok _ => r | Throw e => Throw e end, st'', t1 ++ t2).

(** The value [scrape] resolves to. *)
Record Summary := mkSummary {
  total_found : nat;
  filtered_count : nat;
  saved_count : nat;
  summary_data : list Product }.

Inductive Result :=
| ErrorResult (msg : jsstring)        (* { error: msg } *)
| Success (s : Summary).              (* { status: 'success', ... } *)

Section Scrape.

Variable browser : Browser.
Variable supabase : Client.

(** Lines 141-145: the awaited upsert of one product. *)
Definition upsert (prod : Product) : M Reply :=
  fun st =>
    match supabase st prod with
    | Ok (st', r) => (Ok r, st', [EvUpsert prod])
    | Throw e => (Throw e, st, [EvUpsert prod])
    end.

(** Lines 147-148. [data] is truthy when it is an array, also an empty
    one, and [data[0]] is then [undefined] ([None]). *)
Definition record_reply (r : Reply) (savedItems : list (option Product))
  : M (list (option Product)) :=
  match error r, data r with
  | None, Some rows => ret (savedItems ++ [rows !! 0%nat])
  | Some e, _ =>
      call (EvConsoleError (js "Supabase Error: " ++ message e)) (Ok savedItems)
  | None, None => ret savedItems
  end.

(** Lines 139-149: the [for ... of] loop. *)
Fixpoint upsert_loop (prods : list Product)
    (savedItems : list (option Product)) : M (list (option Product)) :=
  match prods with
  | [] => ret savedItems
  | prod :: rest =>
      r <- upsert prod ;;
      savedItems' <- record_reply r savedItems ;;
      upsert_loop rest savedItems'
  end.

(** Lines 77-157: the body of the [try] block. *)
Definition try_body (platformKey : jsstring) (config : ConfigValue) : M Result :=
  call (EvGoto (config_url config)) (goto browser (config_url config)) ;;;
  call EvScroll (scroll browser) ;;;
  call EvWait (waitForTimeout browser) ;;;
  products <- call (EvExtract (config_selector config))
                   (extract browser (config_selector config)) ;;
  let valid := validProducts platformKey products in
  savedItems <- upsert_loop valid [] ;;
  ret (Success {| total_found := length products;
                  filtered_count := length valid;
                  saved_count := length savedItems;
                  summary_data := take 50 valid |}).

(** Lines 64-165. *)
Definition scrape (platformKey : jsstring) : M Result :=
  match CONFIG_get platformKey with
  | None => ret (ErrorResult (js "Platform not supported"))
  | Some config =>
      call EvLaunch (launch browser) ;;;
      call EvNewContext (newContext browser) ;;;
      call EvNewPage (newPage browser) ;;;
      finally
        (try_catch (try_body platformKey config)
           (fun e => call (EvConsoleError (message e))
                          (Ok (ErrorResult (message e)))))
        (call EvClose (close browser))
  end.

End Scrape.

(** Modelled from the spec: the storage service is an external collaborator
    (only the client call of lines 141-145 is in the source), "an upsert
    operation parameterized by the composite key [(platform, external_id)],
    with duplicate-ignoring semantics (insert-if-absent, never overwrite)".
    The chained [.select()] makes the reply carry, in [data], the array of
    the rows the request wrote: the new row, or no row at all when the key
    was already there. *)
Definition insert_or_ignore : Client :=
  fun st prod =>
    match st !! key_of prod with
    | Some _ => Ok (st, {| data := Some []; error := None |})
    | None => Ok (<[key_of prod := prod]> st,
                  {| data := Some [prod]; error := None |})
    end.

(** A browser whose calls all succeed and whose page holds [items]. *)
Definition page_with (items : list RawItem.t) : Browser :=
  {| launch := Ok tt; newContext := Ok tt; newPage := Ok tt;
     goto := fun _ => Ok tt; scroll := Ok tt; waitForTimeout := Ok tt;
     extract := fun _ => Ok items; close := Ok tt |}.

(* ===================================================================== *)
(** ** The page: in-page extraction and the per-platform parsers *)
(* ===================================================================== *)

(** What the code reads of a DOM node returned by [querySelector]. *)
Record Node := mkNode {
  href : jsstring;
  src : jsstring;
  innerText : jsstring }.

(** A matched element, seen through [el.querySelector(sel)]; [None] is
    [null]. *)
Definition Element := jsstring -> option Node.

(** [getTxt] (line 95). *)
Definition getTxt (el : Element) (sel : jsstring) : jsstring :=
  match el sel with
  | Some n => innerText n
  | None => []
  end.

(** The object pushed for one matched element (lines 98-104). *)
Definition extract_item (el : Element) : RawItem.t :=
  {| RawItem.title := getTxt el (js ".prdct-desc-cntnr-ttl") ++ js " "
                      ++ getTxt el (js ".prdct-desc-cntnr-name");
     RawItem.priceStr := getTxt el (js ".prc-box-dscntd");
     RawItem.orgPriceStr := getTxt el (js ".prc-box-orgnl");
     RawItem.link := match el (js "a") with Some n => href n | None => [] end;
     RawItem.img := match el (js "img") with Some n => src n | None => [] end |}.

(** The callback of [page.evaluate] over the matched elements
    (lines 86-107). *)
Definition extract_items (matched : list Element) : list RawItem.t :=
  extract_item <$> matched.

(** The object returned by [CONFIG.trendyol.parser] (lines 42-50);
    [image_url] and [product_url] may be [null]. *)
Module Parsed.
Record t := mk {
  title : jsstring;
  price : number;
  original_price : number;
  discount_rate : number;
  image_url : option jsstring;
  product_url : option jsstring;
  platform : jsstring }.
End Parsed.

(** [cleanPrice] of the Trendyol parser (lines 22-25). *)
Definition cleanPrice (str : jsstring) : number :=
  match str with
  | [] => 0%float
  | _ => parseFloat (replace_first COMMA DOT (strip_non_price_dot str))
  end.

(** [parseTRPrice] of the Trendyol parser (line 31): no guard for the empty
    string. *)
Definition parser_parseTRPrice (p : jsstring) : number :=
  parseFloat (replace_first COMMA DOT (strip_non_price p)).

(** Lines 37-40 and 46: the discount rate of the Trendyol parser. *)
Definition parser_discountRate (price originalPrice : number) : number :=
  Math_round (if gt originalPrice price
              then ((originalPrice - price) / originalPrice * 100)%float
              else 0%float).

(** [CONFIG.trendyol.parser] (lines 14-51). *)
Definition trendyol_parser (el : Element) : option Parsed.t :=
  let link := href <$> el (js "a") in
  let img := src <$> el (js "img") in
  let brand := getTxt el (js ".prdct-desc-cntnr-ttl") in
  let name := getTxt el (js ".prdct-desc-cntnr-name") in
  let title := trim (brand ++ js " " ++ name) in
  let priceRaw := match el (js ".prc-box-dscntd") with
                  | Some n => innerText n
                  | None => js "0"
                  end in
  let originalPriceRaw := match el (js ".prc-box-orgnl") with
                          | Some n => innerText n
                          | None => priceRaw
                          end in
  let price := parser_parseTRPrice priceRaw in
  let originalPrice := parser_parseTRPrice originalPriceRaw in
  Some {| Parsed.title := title;
          Parsed.price := price;
          Parsed.original_price := originalPrice;
          Parsed.discount_rate := parser_discountRate price originalPrice;
          Parsed.image_url := img;
          Parsed.product_url := link;
          Parsed.platform := js "trendyol" |}.

(** [CONFIG.temu.parser] (lines 57-60): it returns [null]. *)
Definition temu_parser (el : Element) : option Parsed.t := None.

(* ===================================================================== *)
(** ** Reference definitions *)
(* ===================================================================== *)

(** What the properties below are stated with: the specification's wording
    of the parser and of the discount formula, the digits of a price text,
    the sign of a binary64 value, and the table a batch leaves. *)

(** The parser as the specification words it: digits, commas and dots are
    kept, the comma is the decimal separator, and a text that does not parse
    gives 0. *)
Definition claimed_parse (text : jsstring) : number :=
  match text with
  | [] => 0%float
  | _ =>
      let v := parseFloat (replace_first COMMA DOT (strip_non_price_dot text)) in
      if is_nan v then 0%float else v
  end.

(** The formula of the specification, evaluated on numbers in the order it is
    written: [round(100 * (originalPrice - price) / originalPrice)]. *)
Definition claimed_discountRate (price orgPrice : number) : number :=
  if le orgPrice price || le orgPrice 0 then 0%float
  else Math_round (100 * (orgPrice - price) / orgPrice)%float.

(** The same formula on exact integers: [num / den] rounded half up. *)
Definition exact_half_up (num den : Z) : Z := ((2 * num + den) / (2 * den))%Z.

(** The text before the first comma, and the text after it. *)
Definition before_comma (s : jsstring) : jsstring := fst (span (fun c => negb (c =? COMMA)%N) s).
Definition after_comma (s : jsstring) : jsstring :=
  match snd (span (fun c => negb (c =? COMMA)%N) s) with
  | _ :: r => r
  | [] => []
  end.

(** The digits that count: those before the first comma, and those between
    the first comma and the second. *)
Definition integer_digits (str : jsstring) : jsstring :=
  List.filter is_digit (before_comma str).
Definition fraction_digits (str : jsstring) : jsstring :=
  List.filter is_digit (before_comma (after_comma str)).

(** Not below zero: NaN, a zero of either sign, [+Infinity] or a positive
    finite value. *)
Definition sf_nonneg (x : spec_float) : bool :=
  match x with
  | S754_infinity s | S754_finite s _ _ => negb s
  | _ => true
  end.

(** Above zero. *)
Definition sf_pos (x : spec_float) : bool :=
  match x with
  | S754_infinity s | S754_finite s _ _ => negb s
  | _ => false
  end.

(** The table after [insert_or_ignore] has seen [deals]. *)
Definition store_after (st : Store) (deals : list Product) : Store :=
  foldl (fun s d => match s !! key_of d with
                    | Some _ => s
                    | None => <[key_of d := d]> s
                    end) st deals.

(** A value that is not below zero, and not NaN. *)
Definition sf_number_nonneg (x : spec_float) : bool :=
  match x with
  | S754_nan => false
  | _ => sf_nonneg x
  end.

(** The products sent to the storage service, in order. *)
Definition upserted (t : list Event) : list Product :=
  omap (fun ev => match ev with EvUpsert p => Some p | _ => None end) t.

(** The events of the [try] block: anything but opening and closing the
    browser. *)
Definition inside_try (ev : Event) : bool :=
  match ev with
  | EvLaunch | EvNewContext | EvNewPage | EvClose => false
  | _ => true
  end.

(* ===================================================================== *)
(** ** Sample data *)
(* ===================================================================== *)

(** The two raw items of the end-to-end scenario. *)
Definition item_a : RawItem.t :=
  RawItem.mk (js "Brand ShirtX") (js "59,99 TL") (js "129,99 TL")
             (js "https://x/p/1?a=1") (js "").
Definition item_b : RawItem.t :=
  RawItem.mk (js "Hi") (js "10,00 TL") (js "10,00 TL") (js "https://x/p/2") (js "").

(** The shirt of the scenario on a page that shows no reference price. *)
Definition shirt_without_reference : RawItem.t :=
  RawItem.mk (js "Brand ShirtX") (js "59,99 TL") (js "") (js "https://x/p/1?a=1")
             (js "").

(** Three deals as the filter would let them through, the last one without
    a link. *)
Definition deal_a : Product :=
  mkProduct (js "Brand ShirtX") 59.99 129.99 54 [] (js "https://x/p/1?a=1")
            (js "trendyol") (js "https://x/p/1").



(** A browser whose navigation times out. *)
Definition goto_fails : Browser :=
  {| launch := Ok tt; newContext := Ok tt; newPage := Ok tt;
     goto := fun _ => Throw (mkError (js "Timeout 60000ms exceeded"));
     scroll := Ok tt; waitForTimeout := Ok tt;
     extract := fun _ => Ok [item_a]; close := Ok tt |}.


(** The shirt again, reached through another query string. *)
Definition item_a_other_query : RawItem.t :=
  RawItem.mk (js "Brand ShirtX") (js "59,99 TL") (js "129,99 TL")
             (js "https://x/p/1?ref=home") (js "").


(** A product card with the given nodes. *)
Definition card_of (brand name dscntd orgnl link img : option jsstring) : Element :=
  fun sel =>
    if bool_decide (sel = js ".prdct-desc-cntnr-ttl") then mkNode [] [] <$> brand
    else if bool_decide (sel = js ".prdct-desc-cntnr-name") then mkNode [] [] <$> name
    else if bool_decide (sel = js ".prc-box-dscntd") then mkNode [] [] <$> dscntd
    else if bool_decide (sel = js ".prc-box-orgnl") then mkNode [] [] <$> orgnl
    else if bool_decide (sel = js "a") then (fun h => mkNode h [] []) <$> link
    else if bool_decide (sel = js "img") then (fun s => mkNode [] s []) <$> img
    else None.

(** The shirt of the scenario as a card, and the same card without its
    original-price node. *)
Definition shirt_card : Element :=
  card_of (Some (js "Brand")) (Some (js "ShirtX")) (Some (js "59,99 TL"))
          (Some (js "129,99 TL")) (Some (js "https://x/p/1?a=1")) None.
Definition shirt_card_no_reference : Element :=
  card_of (Some (js "Brand")) (Some (js "ShirtX")) (Some (js "59,99 TL"))
          None (Some (js "https://x/p/1?a=1")) None.


(** A browser whose page cannot be created. *)
Definition page_fails : Browser :=
  {| launch := Ok tt; newContext := Ok tt;
     newPage := Throw (mkError (js "Target page, context or browser has been closed"));
     goto := fun _ => Ok tt; scroll := Ok tt; waitForTimeout := Ok tt;
     extract := fun _ => Ok []; close := Ok tt |}.

(* ===================================================================== *)
(** ** Evaluation of the primitives *)
(* ===================================================================== *)

Example parseFloat_ex1 : parseFloat (js "129.99") = 129.99%float.
Proof. vm_compute. reflexivity. Qed.
Example parseFloat_ex2 : parseFloat (js "  -1.5e3xyz") = (-1500)%float.
Proof. vm_compute. reflexivity. Qed.
Example parseFloat_ex3 : parseFloat (js "") = nan.
Proof. vm_compute. reflexivity. Qed.
Example parseFloat_ex4 : parseFloat (js ".5") = 0.5%float.
Proof. vm_compute. reflexivity. Qed.
Example parseFloat_ex5 : parseFloat (js "1.2.3") = 1.2%float.
Proof. vm_compute. reflexivity. Qed.
Example Math_round_ex :
  (Math_round 57.5, Math_round 57.499999999999993, Math_round 2.5,
   Math_round (-2.5), Math_round (-0.2), Math_round 0.49999999999999994,
   Math_round 1e300, Math_round 4503599627370495.5)%float
  = (58, 57, 3, -2, neg_zero, 0, 1e300, 4503599627370496)%float.
Proof. vm_compute. reflexivity. Qed.

Example parseTRPrice_ex : parseTRPrice (js "1.299,99 TL") = 1299.99%float.
Proof. vm_compute. reflexivity. Qed.
Example discountRate_ex : discountRate 59.99 129.99 = 54%float.
Proof. vm_compute. reflexivity. Qed.

(* ===================================================================== *)
(** ** Facts about binary64 comparison and signs *)
(* ===================================================================== *)

Module NumberFacts.

Lemma SFcompare_antisym (x y : spec_float) :
  SFcompare y x = CompOpp <$> SFcompare x y.
Proof.
  destruct x as [sx|sx| |sx mx ex], y as [sy|sy| |sy my ey]; simpl;
    try reflexivity;
    try (destruct sx; reflexivity);
    try (destruct sy; reflexivity);
    try (destruct sx, sy; reflexivity).
  f_equal.
  destruct sx, sy; simpl; try reflexivity;
    rewrite (Z.compare_antisym ey ex);
    destruct (ey ?= ex)%Z eqn:E; simpl; try reflexivity;
    rewrite (Pos.compare_cont_antisym mx my Eq); simpl;
    try rewrite CompOpp_involutive; reflexivity.
Qed.

Lemma SFcompare_refl (x : spec_float) :
  SFcompare x x = None \/ SFcompare x x = Some Eq.
Proof.
  destruct x as [s|s| |s m e]; simpl; auto; right.
  - destruct s; reflexivity.
  - destruct s; rewrite Z.compare_refl, Pos.compare_cont_refl; reflexivity.
Qed.

(** [x < x] is false for every number. *)
Lemma lt_irrefl (x : number) : lt x x = false.
Proof.
  unfold lt. rewrite FloatAxioms.ltb_spec. unfold SFltb.
  destruct (SFcompare_refl (Prim2SF x)) as [-> | ->]; reflexivity.
Qed.

(** [x <= y] excludes [x > y]. *)
Lemma le_not_gt (x y : number) : le x y = true -> gt x y = false.
Proof.
  unfold le, gt. rewrite FloatAxioms.leb_spec, FloatAxioms.ltb_spec. unfold SFleb, SFltb.
  rewrite (SFcompare_antisym (Prim2SF x) (Prim2SF y)).
  destruct (SFcompare (Prim2SF x) (Prim2SF y)) as [[]|]; simpl; congruence.
Qed.

Lemma is_nan_Prim2SF (x : number) :
  is_nan x = false -> Prim2SF x <> S754_nan.
Proof.
  unfold is_nan. rewrite FloatAxioms.eqb_spec. unfold SFeqb.
  intros H E. rewrite E in H. discriminate.
Qed.

(** Two numbers that are not NaN are comparable: not [x <= y] is [x > y]. *)
Lemma not_le_gt (x y : number) :
  is_nan x = false -> is_nan y = false -> le x y = false -> gt x y = true.
Proof.
  intros Hx%is_nan_Prim2SF Hy%is_nan_Prim2SF.
  unfold le, gt. rewrite FloatAxioms.leb_spec, FloatAxioms.ltb_spec. unfold SFleb, SFltb.
  rewrite (SFcompare_antisym (Prim2SF x) (Prim2SF y)).
  destruct (SFcompare (Prim2SF x) (Prim2SF y)) as [[]|] eqn:E; simpl;
    try congruence.
  exfalso. destruct (Prim2SF x), (Prim2SF y); simpl in E; congruence.
Qed.

(** A comparison one of whose sides is NaN, by cases on the two values. *)
Ltac nan_compare x y :=
  unfold is_nan, gt;
  rewrite FloatAxioms.eqb_spec, FloatAxioms.ltb_spec; unfold SFeqb, SFltb;
  destruct (Prim2SF x), (Prim2SF y); simpl; try congruence;
  repeat match goal with s : bool |- _ => destruct s end; simpl;
  try congruence;
  rewrite ?Z.compare_refl, ?Pos.compare_cont_refl; simpl; congruence.

(** A comparison with NaN is false. *)
Lemma gt_nan_l (x y : number) : is_nan x = true -> gt x y = false.
Proof.
  nan_compare x y.
Qed.

Lemma gt_nan_r (x y : number) : is_nan y = true -> gt x y = false.
Proof.
  nan_compare x y.
Qed.

(** *** Signs *)

Lemma binary_round_aux_nonneg mx ex lx :
  sf_nonneg (binary_round_aux prec emax false mx ex lx) = true.
Proof.
  unfold binary_round_aux.
  destruct (shr_fexp prec emax mx ex lx) as [mrs' e'].
  destruct (shr_fexp prec emax _ e' loc_Exact) as [mrs'' e''].
  destruct (shr_m mrs''); try reflexivity.
  destruct (e'' <=? emax - prec)%Z; reflexivity.
Qed.

Lemma binary_normalize_nonneg (m e : Z) :
  (0 <= m)%Z -> sf_nonneg (binary_normalize prec emax m e false) = true.
Proof.
  intros Hm. destruct m as [|p|p]; simpl; [reflexivity| |lia].
  unfold binary_round.
  destruct (shl_align p e _) as [mz ez]. apply binary_round_aux_nonneg.
Qed.

Lemma SFmul_nonneg (x y : spec_float) :
  sf_nonneg x = true -> sf_nonneg y = true ->
  sf_nonneg (SF64mul x y) = true.
Proof.
  destruct x as [sx|sx| |sx mx ex], y as [sy|sy| |sy my ey]; simpl;
    try reflexivity; intros Hx Hy;
    repeat match goal with
           | H : negb ?s = true |- _ => apply negb_true_iff in H; subst s
           end;
    try reflexivity;
    try (destruct sx; reflexivity); try (destruct sy; reflexivity).
  apply binary_round_aux_nonneg.
Qed.

Lemma SFdiv_nonneg (x y : spec_float) :
  sf_nonneg x = true -> sf_pos y = true ->
  sf_nonneg (SF64div x y) = true.
Proof.
  destruct x as [sx|sx| |sx mx ex], y as [sy|sy| |sy my ey]; simpl;
    try reflexivity; try discriminate; intros Hx Hy;
    repeat match goal with
           | H : negb ?s = true |- _ => apply negb_true_iff in H; subst s
           end;
    try reflexivity;
    try (destruct sx; reflexivity).
  destruct (SFdiv_core_binary prec emax (Z.pos mx) ex (Z.pos my) ey)
    as [[mz ez] lz].
  apply binary_round_aux_nonneg.
Qed.

(** *** Canonical mantissas *)

Lemma digits2_pos_bounds (m : positive) :
  (2 ^ (Z.pos (digits2_pos m) - 1) <= Z.pos m < 2 ^ Z.pos (digits2_pos m))%Z.
Proof.
  induction m as [m IH|m IH|]; simpl digits2_pos.
  - rewrite Pos2Z.inj_succ.
    replace (Z.succ (Z.pos (digits2_pos m)) - 1)%Z with (Z.pos (digits2_pos m)) by lia.
    rewrite Z.pow_succ_r by lia.
    assert (E : Z.pos (digits2_pos m) = Z.succ (Z.pos (digits2_pos m) - 1)) by lia.
    rewrite E at 1. rewrite Z.pow_succ_r by lia. lia.
  - rewrite Pos2Z.inj_succ.
    replace (Z.succ (Z.pos (digits2_pos m)) - 1)%Z with (Z.pos (digits2_pos m)) by lia.
    rewrite Z.pow_succ_r by lia.
    assert (E : Z.pos (digits2_pos m) = Z.succ (Z.pos (digits2_pos m) - 1)) by lia.
    rewrite E at 1. rewrite Z.pow_succ_r by lia. lia.
  - simpl. lia.
Qed.

(** A canonical mantissa has at most 53 bits, and exactly 53 above the
    least exponent. *)
Lemma bounded_mantissa (m : positive) (e : Z) :
  bounded prec emax m e = true ->
  (Z.pos m < 2 ^ 53 /\ emin <= e /\ (emin < e -> 2 ^ 52 <= Z.pos m))%Z.
Proof.
  unfold bounded, canonical_mantissa, fexp, SpecFloat.emin.
  intros [Hc _]%andb_true_iff. apply Z.eqb_eq in Hc.
  pose proof (digits2_pos_bounds m) as [Hlo Hhi].
  set (d := Z.pos (digits2_pos m)) in *.
  assert (Hd : (0 < d)%Z) by (subst d; lia).
  change prec with 53%Z in *. change emax with 1024%Z in *.
  assert (Hd53 : (d <= 53)%Z) by lia.
  split; [|split].
  - eapply Z.lt_le_trans; [exact Hhi|]. apply Z.pow_le_mono_r; lia.
  - lia.
  - intros He. assert (d = 53)%Z as Ed by lia. rewrite Ed in Hlo. exact Hlo.
Qed.

Lemma shl_align_value (m : positive) (e ez : Z) :
  (ez <= e)%Z ->
  Z.pos (fst (shl_align m e ez)) = (Z.pos m * 2 ^ (e - ez))%Z.
Proof.
  intros Hle. unfold shl_align.
  destruct (ez - e)%Z as [|d|d] eqn:E; try lia.
  - replace (e - ez)%Z with 0%Z by lia. simpl. lia.
  - replace (e - ez)%Z with (Z.pos d) by lia. simpl fst.
    clear. induction d as [|d IH] using Pos.peano_ind.
    + simpl. lia.
    + rewrite Pos.iter_succ, Pos2Z.inj_succ, Z.pow_succ_r by lia.
      rewrite Pos2Z.inj_xO, IH. lia.
Qed.

(** Between canonical values, a larger exponent means a larger value. *)
Lemma canonical_exponent_order (m1 m2 : positive) (e1 e2 : Z) :
  bounded prec emax m1 e1 = true -> bounded prec emax m2 e2 = true ->
  (e1 < e2)%Z -> (Z.pos m1 < Z.pos m2 * 2 ^ (e2 - e1))%Z.
Proof.
  intros (H1 & Hmin & _)%bounded_mantissa (_ & _ & H2)%bounded_mantissa Hlt.
  specialize (H2 ltac:(lia)).
  assert (2 ^ 1 <= 2 ^ (e2 - e1))%Z by (apply Z.pow_le_mono_r; lia).
  change (2 ^ 53)%Z with (2 ^ 52 * 2 ^ 1)%Z in H1. nia.
Qed.

(** The difference of a number and a smaller one is not below zero. *)
Lemma SFsub_nonneg (o p : spec_float) :
  valid_binary o = true -> valid_binary p = true ->
  SFltb p o = true -> sf_nonneg (SF64sub o p) = true.
Proof.
  unfold SFltb.
  destruct o as [so|so| |so mo eo], p as [sp|sp| |sp mp ep]; simpl;
    intros Vo Vp H; try discriminate; try reflexivity;
    try solve [destruct so; simpl in *; (discriminate || reflexivity)];
    try solve [destruct sp; simpl in *; (discriminate || reflexivity)];
    try solve [destruct so, sp; simpl in *; (discriminate || reflexivity)].
  - apply binary_normalize_nonneg.
    rewrite !shl_align_value by lia.
    change (Pos.compare_cont Eq mp mo) with (mp ?= mo)%positive in H.
    destruct so, sp; cbn [cond_Zopp]; simpl in H; try discriminate.
    + destruct (ep ?= eo)%Z eqn:E; try discriminate.
      * apply Z.compare_eq in E. subst ep.
        rewrite Z.min_id, Z.sub_diag, Z.pow_0_r, !Z.mul_1_r.
        destruct (mp ?= mo)%positive eqn:C; try discriminate.
        assert (mo < mp)%positive by (apply Pos.compare_gt_iff; exact C). lia.
      * assert (E' : (eo < ep)%Z) by (apply Z.compare_gt_iff; exact E).
        clear E; rename E' into E.
        rewrite Z.min_l by lia. rewrite Z.sub_diag, Z.pow_0_r, Z.mul_1_r.
        pose proof (canonical_exponent_order mo mp eo ep Vo Vp E). lia.
    + assert (0 < Z.pos mo * 2 ^ (eo - Z.min eo ep))%Z
        by (apply Z.mul_pos_pos; [lia | apply Z.pow_pos_nonneg; lia]).
      assert (0 < Z.pos mp * 2 ^ (ep - Z.min eo ep))%Z
        by (apply Z.mul_pos_pos; [lia | apply Z.pow_pos_nonneg; lia]).
      lia.
    + destruct (ep ?= eo)%Z eqn:E; try discriminate.
      * apply Z.compare_eq in E. subst ep.
        rewrite Z.min_id, Z.sub_diag, Z.pow_0_r, !Z.mul_1_r.
        destruct (mp ?= mo)%positive eqn:C; try discriminate.
        assert (mp < mo)%positive by (apply Pos.compare_lt_iff; exact C). lia.
      * assert (E' : (ep < eo)%Z) by (apply Z.compare_lt_iff; exact E).
        clear E; rename E' into E.
        rewrite Z.min_r by lia. rewrite Z.sub_diag, Z.pow_0_r, Z.mul_1_r.
        pose proof (canonical_exponent_order mp mo ep eo Vp Vo E). lia.
Qed.

Lemma of_int_nonneg (n : Z) :
  (0 <= n)%Z -> sf_nonneg (Prim2SF (of_int n)) = true.
Proof.
  intros Hn. destruct n as [|p|p]; simpl; [reflexivity| |lia].
  rewrite of_uint63_spec. apply binary_normalize_nonneg.
  apply Uint63.to_Z_bounded.
Qed.

Lemma Math_round_nonneg (x : number) :
  sf_nonneg (Prim2SF x) = true -> sf_nonneg (Prim2SF (Math_round x)) = true.
Proof.
  unfold Math_round. intros Hx.
  destruct (Prim2SF x) as [s|s| |s m e] eqn:E; try (rewrite E; exact Hx).
  simpl in Hx. apply negb_true_iff in Hx. subst s.
  destruct (0 <=? e)%Z; [rewrite E; reflexivity|].
  cbn [cond_Zopp].
  assert (Hn : (0 <= Z.shiftr (2 * Z.pos m + 2 ^ (- e)) (1 - e))%Z).
  { apply Z.shiftr_nonneg.
    assert (0 <= 2 ^ (- e))%Z by (apply Z.pow_nonneg; lia). lia. }
  destruct (Z.shiftr (2 * Z.pos m + 2 ^ (- e)) (1 - e)) as [|n|n] eqn:En.
  - reflexivity.
  - apply of_int_nonneg. lia.
  - lia.
Qed.

Lemma nonneg_not_lt_zero (x : number) :
  sf_nonneg (Prim2SF x) = true -> lt x 0 = false.
Proof.
  unfold lt. rewrite FloatAxioms.ltb_spec. unfold SFltb.
  change (Prim2SF 0) with (S754_zero false).
  destruct (Prim2SF x) as [s|s| |s m e]; simpl; try reflexivity;
    intros ->%negb_true_iff; reflexivity.
Qed.

Lemma gt_zero_pos (x : number) : gt x 0 = true -> sf_pos (Prim2SF x) = true.
Proof.
  unfold gt. rewrite FloatAxioms.ltb_spec. unfold SFltb.
  change (Prim2SF 0) with (S754_zero false).
  destruct (Prim2SF x) as [s|s| |s m e]; simpl; try discriminate;
    destruct s; simpl; congruence.
Qed.

End NumberFacts.

(* ===================================================================== *)
(** ** The discount rate (lines 119-128) *)
(* ===================================================================== *)

Import NumberFacts.

Lemma discount_nonneg (price orgPrice : number) :
  sf_nonneg (Prim2SF (discount price orgPrice)) = true.
Proof.
  unfold discount.
  destruct (gt orgPrice price) eqn:G1; simpl; [|reflexivity].
  destruct (gt orgPrice 0) eqn:G2; [|reflexivity].
  rewrite mul_spec, div_spec, sub_spec.
  apply SFmul_nonneg; [|reflexivity].
  apply SFdiv_nonneg; [|apply gt_zero_pos; exact G2].
  apply SFsub_nonneg; try apply Prim2SF_valid.
  unfold gt in G1. rewrite FloatAxioms.ltb_spec in G1. exact G1.
Qed.

Lemma discountRate_guard_false (price orgPrice : number) :
  gt orgPrice price && gt orgPrice 0 = false ->
  discountRate price orgPrice = 0%float.
Proof.
  unfold discountRate, discount. intros ->. reflexivity.
Qed.

Lemma discountRate_guard_true (price orgPrice : number) :
  gt orgPrice price = true -> gt orgPrice 0 = true ->
  discountRate price orgPrice
  = Math_round ((orgPrice - price) / orgPrice * 100)%float.
Proof.
  unfold discountRate, discount. intros -> ->. reflexivity.
Qed.

(** C4, as stated, fails: from 200 down to 85 the discount is exactly 57.5
    percent, which rounds half up to 58, and the specification's formula
    gives 58 on numbers as well; the code divides first, gets
    57.499999999999993 and returns 57. *)
Lemma discountRate_85_200_differs :
  discountRate 85 200 = 57%float
  /\ claimed_discountRate 85 200 = 58%float
  /\ exact_half_up (100 * (200 - 85)) 200 = 58%Z
  /\ discountRate 85 200 <> claimed_discountRate 85 200.
Proof.
  assert (E1 : discountRate 85 200 = 57%float) by (vm_compute; reflexivity).
  assert (E2 : claimed_discountRate 85 200 = 58%float) by (vm_compute; reflexivity).
  repeat split; try assumption; try reflexivity.
  rewrite E1, E2. intros H.
  assert (C : (57 =? 58)%float = true) by (rewrite H; reflexivity).
  vm_compute in C. discriminate.
Qed.

(** C4 (amended): for every pair of numbers the discount rate is 0 when
    [orgPrice <= price] or [orgPrice <= 0] (and also when one of them is
    NaN); otherwise it is [Math.round] of the binary64 value of
    [((orgPrice - price) / orgPrice) * 100], the division done first; it is
    never below zero; and it is 50, 0, 0, 0 on (100, 200), (200, 100),
    (100, 100), (0, 0), and 57 on (85, 200). *)
Theorem discountRate_spec (price orgPrice : number) :
  (le orgPrice price = true \/ le orgPrice 0 = true
   \/ is_nan price = true \/ is_nan orgPrice = true ->
   discountRate price orgPrice = 0%float)
  /\ (le orgPrice price = false -> le orgPrice 0 = false ->
      is_nan price = false -> is_nan orgPrice = false ->
      discountRate price orgPrice
      = Math_round ((orgPrice - price) / orgPrice * 100)%float)
  /\ lt (discountRate price orgPrice) 0 = false
  /\ discountRate 100 200 = 50%float
  /\ discountRate 200 100 = 0%float
  /\ discountRate 100 100 = 0%float
  /\ discountRate 0 0 = 0%float
  /\ discountRate 85 200 = 57%float.
Proof.
  split; [|split; [|split]].
  - intros H. apply discountRate_guard_false. apply andb_false_iff.
    destruct H as [H|[H|[H|H]]].
    + left. apply le_not_gt. exact H.
    + right. apply le_not_gt. exact H.
    + left. apply gt_nan_r. exact H.
    + left. apply gt_nan_l. exact H.
  - intros H1 H2 Np No. apply discountRate_guard_true.
    + apply not_le_gt; assumption.
    + apply not_le_gt; [assumption|reflexivity|assumption].
  - apply nonneg_not_lt_zero. apply Math_round_nonneg, discount_nonneg.
  - repeat split; vm_compute; reflexivity.
Qed.

(* ===================================================================== *)
(** ** Normalisation and the validity filter (lines 110-134) *)
(* ===================================================================== *)

Lemma discountRate_same (x : number) : discountRate x x = 0%float.
Proof.
  apply discountRate_guard_false. apply andb_false_iff. left.
  unfold gt. apply lt_irrefl.
Qed.

(** C7: for every raw item, normalisation parses the price text into
    [price] and the reference-price text into [original_price]: when the
    parsed reference is 0 (as it is for a missing, empty text)
    [original_price] is the parsed current price and the discount rate is 0;
    in every other case [original_price] is the parsed reference itself; and
    the discount rate is always the one of these two prices. *)
Theorem normalize_reference_fallback (platformKey : jsstring) (p : RawItem.t) :
  let n := normalize platformKey p in
  let reference := parseTRPrice (RawItem.orgPriceStr p) in
  price n = parseTRPrice (RawItem.priceStr p)
  /\ (strict_eq reference 0 = true ->
      original_price n = price n /\ discount_rate n = 0%float)
  /\ (strict_eq reference 0 = false -> original_price n = reference)
  /\ (RawItem.orgPriceStr p = [] ->
      original_price n = price n /\ discount_rate n = 0%float)
  /\ discount_rate n = discountRate (price n) (original_price n).
Proof.
  cbn zeta. unfold normalize. cbn [price original_price discount_rate].
  split; [reflexivity|]. split; [|split; [|split; [|reflexivity]]].
  - intros ->. split; [reflexivity|apply discountRate_same].
  - intros ->. reflexivity.
  - intros ->. cbn [parseTRPrice].
    replace (strict_eq 0 0) with true by (vm_compute; reflexivity).
    split; [reflexivity|apply discountRate_same].
Qed.

Lemma normalize_reference_fallback_witness :
  strict_eq (parseTRPrice (RawItem.orgPriceStr shirt_without_reference)) 0 = true
  /\ original_price (normalize (js "trendyol") shirt_without_reference) = 59.99%float
  /\ discount_rate (normalize (js "trendyol") shirt_without_reference) = 0%float
  /\ strict_eq (parseTRPrice (RawItem.orgPriceStr item_a)) 0 = false
  /\ original_price (normalize (js "trendyol") item_a) = 129.99%float.
Proof.
  assert (H : strict_eq (parseTRPrice (RawItem.orgPriceStr shirt_without_reference)) 0 = true)
    by (vm_compute; reflexivity).
  assert (H' : strict_eq (parseTRPrice (RawItem.orgPriceStr item_a)) 0 = false)
    by (vm_compute; reflexivity).
  destruct (normalize_reference_fallback (js "trendyol") shirt_without_reference)
    as (Hp & Hzero & _).
  destruct (normalize_reference_fallback (js "trendyol") item_a)
    as (_ & _ & Hkept & _).
  destruct (Hzero H) as [Ho Hd].
  split; [exact H|]. split; [|split; [exact Hd|split; [exact H'|]]].
  - rewrite Ho, Hp. vm_compute. reflexivity.
  - rewrite (Hkept H'). vm_compute. reflexivity.
Defined.

(** A reference price that is present is kept as parsed. *)
Lemma normalize_reference_kept (platformKey : jsstring) (p : RawItem.t) :
  strict_eq (parseTRPrice (RawItem.orgPriceStr p)) 0 = false ->
  original_price (normalize platformKey p) = parseTRPrice (RawItem.orgPriceStr p).
Proof.
  intros H. unfold normalize. cbn [original_price]. rewrite H. reflexivity.
Qed.

(** C3: a product passes the filter exactly when its discount rate is at
    least 40, its price is above 0 and its title is longer than 5; a rate of
    40 passes and 39 does not, a title of length 5 fails and 6 passes. *)
Theorem isValid_iff (p : Product) :
  (isValid p = true <->
   ge (discount_rate p) 40 = true /\ gt (price p) 0 = true
   /\ 5 < length (title p))
  /\ (discount_rate p = 40%float ->
      isValid p = (gt (price p) 0 && (5 <? length (title p))))
  /\ (discount_rate p = 39%float -> isValid p = false)
  /\ (length (title p) = 5 -> isValid p = false)
  /\ (length (title p) = 6 ->
      isValid p = (ge (discount_rate p) 40 && gt (price p) 0)).
Proof.
  unfold isValid. split; [split|split; [|split; [|split]]].
  - intros [[? ?]%andb_true_iff ?%Nat.ltb_lt]%andb_true_iff. auto.
  - intros (-> & -> & ->%Nat.ltb_lt). reflexivity.
  - intros ->. reflexivity.
  - intros ->. reflexivity.
  - intros ->. rewrite andb_false_r. reflexivity.
  - intros ->. rewrite andb_true_r. reflexivity.
Qed.

Example isValid_boundaries :
  let deal rate t := mkProduct (js t) 59.99 129.99 rate [] [] (js "trendyol") [] in
  isValid (deal 40%float "abcdef") = true
  /\ isValid (deal 39%float "abcdef") = false
  /\ isValid (deal 40%float "abcde") = false
  /\ isValid (mkProduct (js "abcdef") 0 129.99 100 [] [] [] []) = false
  /\ isValid (mkProduct (js "abcdef") nan nan nan [] [] [] []) = false.
Proof. vm_compute. repeat split; reflexivity. Qed.

(* ===================================================================== *)
(** ** The external identifier (line 132) *)
(* ===================================================================== *)

Lemma split_not_nil (sep : N) (s : jsstring) : split sep s <> [].
Proof.
  destruct s as [|x r]; simpl; [discriminate|].
  destruct (x =? sep)%N; [discriminate|].
  destruct (split sep r); discriminate.
Qed.

Lemma externalId_cons (x : N) (r : jsstring) :
  externalId (x :: r) = if (x =? QUESTION)%N then [] else x :: externalId r.
Proof.
  unfold externalId. simpl.
  destruct (x =? QUESTION)%N; [reflexivity|].
  pose proof (split_not_nil QUESTION r).
  destruct (split QUESTION r); [contradiction|reflexivity].
Qed.

(** C6: for every raw item, the [external_id] that normalisation gives it
    is the item's link up to, and without, its first question mark: it holds
    no question mark, and the link is the identifier followed by nothing or
    by a suffix that starts with a question mark; an empty link gives the
    empty identifier, and the link "https://x/p/123?ref=abc" gives
    "https://x/p/123". *)
Theorem externalId_spec (platformKey : jsstring) (p : RawItem.t) :
  let id := external_id (normalize platformKey p) in
  (QUESTION ∉ id)
  /\ (exists rest, RawItem.link p = id ++ rest
                   /\ (rest = [] \/ exists q, rest = QUESTION :: q))
  /\ (RawItem.link p = [] -> id = [])
  /\ (RawItem.link p = js "https://x/p/123?ref=abc" -> id = js "https://x/p/123").
Proof.
  destruct p as [t ps os link im]. cbn zeta.
  cbn [external_id normalize RawItem.link].
  split; [|split; [|split; intros ->; reflexivity]].
  - induction link as [|x r IH]; [apply not_elem_of_nil|].
    rewrite externalId_cons. destruct (x =? QUESTION)%N eqn:E.
    + apply not_elem_of_nil.
    + apply N.eqb_neq in E. apply not_elem_of_cons. split; [congruence|exact IH].
  - induction link as [|x r (rest & Hr & Hrest)].
    + exists []. split; [reflexivity|left; reflexivity].
    + rewrite externalId_cons. destruct (x =? QUESTION)%N eqn:E.
      * apply N.eqb_eq in E. subst x. exists (QUESTION :: r).
        split; [reflexivity|right; eexists; reflexivity].
      * exists rest. split; [|exact Hrest]. simpl. f_equal. exact Hr.
Qed.

(** The shirt's link, reduced to its identifier by normalisation. *)
Example externalId_item_a :
  external_id (normalize (js "trendyol") item_a) = js "https://x/p/1"
  /\ product_url (normalize (js "trendyol") item_a) = js "https://x/p/1?a=1".
Proof. split; vm_compute; reflexivity. Qed.

(** The identifier of a normalised item is that of its link. *)
Lemma normalize_external_id (platformKey : jsstring) (p : RawItem.t) :
  external_id (normalize platformKey p) = externalId (RawItem.link p)
  /\ platform (normalize platformKey p) = platformKey.
Proof. split; reflexivity. Qed.

(* ===================================================================== *)
(** ** The price parser (lines 111-114) *)
(* ===================================================================== *)

Section PriceParser.

Local Abbreviation not_comma := (fun c : N => negb (c =? COMMA)%N).
Local Abbreviation kept := (fun c : N => is_digit c || (c =? COMMA)%N).

Lemma is_digit_range (c : N) : is_digit c = true <-> (48 <= c <= 57)%N.
Proof.
  unfold is_digit. rewrite andb_true_iff, !N.leb_le. reflexivity.
Qed.

Lemma digit_not_comma (c : N) : is_digit c = true -> (c =? COMMA)%N = false.
Proof.
  intros H%is_digit_range. apply N.eqb_neq. unfold COMMA. lia.
Qed.

Lemma comma_not_digit : is_digit COMMA = false.
Proof. reflexivity. Qed.

(** What follows the digits-and-commas text of [s] after its leading
    digits: nothing, or a comma and the stripped rest. *)
Lemma span_strip (s : jsstring) :
  span is_digit (strip_non_price s)
  = (List.filter is_digit (before_comma s),
     match snd (span not_comma s) with
     | _ :: r => COMMA :: strip_non_price r
     | [] => []
     end).
Proof.
  unfold strip_non_price, before_comma.
  induction s as [|c r IH]; [reflexivity|].
  cbn [List.filter span].
  destruct (c =? COMMA)%N eqn:Ec.
  - apply N.eqb_eq in Ec. subst c. simpl. reflexivity.
  - rewrite orb_false_r. cbn [negb].
    destruct (span not_comma r) as [p q] eqn:Es.
    cbn [fst snd] in *.
    destruct (is_digit c) eqn:Ed.
    + cbn [span List.filter]. rewrite Ed, IH. reflexivity.
    + rewrite IH. cbn [List.filter]. rewrite Ed. reflexivity.
Qed.

Lemma replace_first_digits (ip r : jsstring) :
  Forall (fun c => is_digit c = true) ip ->
  replace_first COMMA DOT (ip ++ r) = ip ++ replace_first COMMA DOT r.
Proof.
  induction 1 as [|c ip Hc _ IH]; [reflexivity|].
  simpl. rewrite (digit_not_comma c Hc), IH. reflexivity.
Qed.

Lemma span_fst_Forall (f : N -> bool) (s : jsstring) :
  Forall (fun c => f c = true) (fst (span f s)).
Proof.
  induction s as [|c r IH]; simpl; [constructor|].
  destruct (f c) eqn:E; [|constructor].
  destruct (span f r) as [p q]. simpl in *. constructor; assumption.
Qed.

Lemma span_app (f : N -> bool) (s : jsstring) :
  s = fst (span f s) ++ snd (span f s).
Proof.
  induction s as [|c r IH]; simpl; [reflexivity|].
  destruct (f c); [|reflexivity].
  destruct (span f r) as [p q]. simpl in *. f_equal. exact IH.
Qed.

(** The rest of a [span] is empty or starts with a unit that fails [f]. *)
Lemma span_snd_head (f : N -> bool) (s : jsstring) :
  match snd (span f s) with
  | c :: _ => f c = false
  | [] => True
  end.
Proof.
  induction s as [|c r IH]; simpl; [exact I|].
  destruct (f c) eqn:E; [|exact E].
  destruct (span f r) as [p q]. exact IH.
Qed.

Lemma span_prefix (f : N -> bool) (p r : jsstring) :
  Forall (fun c => f c = true) p ->
  match r with c :: _ => f c = false | [] => True end ->
  span f (p ++ r) = (p, r).
Proof.
  intros Hp Hr. induction Hp as [|c p Hc _ IH]; simpl.
  - destruct r as [|c r]; [reflexivity|]. simpl. rewrite Hr. reflexivity.
  - rewrite Hc, IH. reflexivity.
Qed.

(** A digit or a dot is no white space, no sign and not the [I] of
    [Infinity]. *)
Lemma price_text_head (c : N) :
  is_digit c = true \/ c = DOT ->
  is_space c = false /\ (c =? PLUS)%N = false /\ (c =? MINUS)%N = false
  /\ (73 =? c)%N = false.
Proof.
  intros H.
  assert (R : (c = 46 \/ c = 48 \/ c = 49 \/ c = 50 \/ c = 51 \/ c = 52
               \/ c = 53 \/ c = 54 \/ c = 55 \/ c = 56 \/ c = 57)%N).
  { destruct H as [H%is_digit_range | ->]; [lia | left; reflexivity]. }
  repeat (destruct R as [-> | R]; [repeat split; reflexivity|]).
  subst c. repeat split; reflexivity.
Qed.

Lemma scan_exponent_kept (r2 : jsstring) :
  match r2 with c :: _ => is_digit c = false | [] => True end ->
  Forall (fun c => kept c = true) r2 ->
  scan_exponent r2 = 0%Z.
Proof.
  destruct r2 as [|c r]; [reflexivity|].
  intros Hd Hk. apply Forall_cons in Hk as [Hk _].
  rewrite Hd in Hk. simpl in Hk. apply N.eqb_eq in Hk. subst c. reflexivity.
Qed.

Lemma span_snd_Forall (f : N -> bool) (P : N -> Prop) (s : jsstring) :
  Forall P s -> Forall P (snd (span f s)).
Proof.
  induction 1 as [|c r Hc Hr IH]; simpl; [constructor|].
  destruct (f c); [|constructor; assumption].
  destruct (span f r) as [p q]. exact IH.
Qed.

(** [parseFloat] on digits, optionally followed by a dot and a text of
    digits and commas: the digits before the dot and those right after it
    are read as a decimal numeral. *)
Lemma parseFloat_price_text (ip u : jsstring) (has_dot : bool) :
  Forall (fun c => is_digit c = true) ip ->
  Forall (fun c => kept c = true) u ->
  parseFloat (ip ++ (if has_dot then DOT :: u else []))
  = let fp := if has_dot then fst (span is_digit u) else [] in
    match ip ++ fp with
    | [] => nan
    | ds => decimal_value (digits_value ds) (- Z.of_nat (length fp))
    end.
Proof.
  intros Hip Hu.
  set (tail := if has_dot then DOT :: u else []).
  assert (Hspan : span is_digit (ip ++ tail) = (ip, tail)).
  { apply span_prefix; [exact Hip|]. subst tail. destruct has_dot; [reflexivity|exact I]. }
  assert (Hscan : scan_decimal (ip ++ tail)
                  = let fp := if has_dot then fst (span is_digit u) else [] in
                    match ip ++ fp with
                    | [] => None
                    | ds => Some (digits_value ds, (- Z.of_nat (length fp))%Z)
                    end).
  { unfold scan_decimal. rewrite Hspan. subst tail. destruct has_dot.
    - rewrite N.eqb_refl.
      pose proof (span_snd_head is_digit u) as Hh.
      pose proof (span_snd_Forall is_digit _ u Hu) as Hk.
      destruct (span is_digit u) as [fp r2]. cbn [fst snd] in *.
      rewrite (scan_exponent_kept r2 Hh Hk). cbn zeta. rewrite Z.sub_0_l.
      reflexivity.
    - cbn zeta. simpl scan_exponent. rewrite Z.sub_0_l. reflexivity. }
  destruct (ip ++ tail) as [|c rest] eqn:Et.
  - apply app_eq_nil in Et as [-> Etail]. subst tail.
    destruct has_dot; [discriminate|]. reflexivity.
  - assert (Hc : is_digit c = true \/ c = DOT).
    { destruct ip as [|d ip'].
      - subst tail. destruct has_dot; [|discriminate].
        injection Et as <- _. right. reflexivity.
      - injection Et as <- _. left. apply Forall_cons in Hip as [Hd _]. exact Hd. }
    destruct (price_text_head c Hc) as (Hs & Hp & Hm & HI).
    unfold parseFloat, trimStart. cbn [drop_while]. rewrite Hs, Hp, Hm.
    unfold parse_unsigned.
    replace (is_prefix (js "Infinity") (c :: rest)) with false
      by (change (js "Infinity") with (73 :: js "nfinity")%N;
          cbn [is_prefix]; rewrite HI; reflexivity).
    rewrite Hscan. cbn zeta.
    destruct (ip ++ (if has_dot then (span is_digit u).1 else [])); reflexivity.
Qed.

Lemma strip_non_price_kept (s : jsstring) :
  Forall (fun c => kept c = true) (strip_non_price s).
Proof.
  unfold strip_non_price. induction s as [|c r IH]; simpl; [constructor|].
  destruct (is_digit c || (c =? COMMA)%N) eqn:E; [constructor|]; assumption.
Qed.

Lemma filter_digit_Forall (s : jsstring) :
  Forall (fun c => is_digit c = true) (List.filter is_digit s).
Proof.
  induction s as [|c r IH]; simpl; [constructor|].
  destruct (is_digit c) eqn:E; [constructor|]; assumption.
Qed.

(** Units outside the class [0-9,] do not matter. *)
Lemma strip_non_price_drop (c : N) (s1 s2 : jsstring) :
  kept c = false ->
  strip_non_price (s1 ++ c :: s2) = strip_non_price (s1 ++ s2).
Proof.
  intros Hc. unfold strip_non_price.
  rewrite !List.filter_app. cbn [List.filter]. rewrite Hc. reflexivity.
Qed.

(** The value of a non-empty price text: the decimal numeral made of
    [integer_digits] and [fraction_digits], and NaN when both are empty. *)
Lemma parseTRPrice_digits (str : jsstring) :
  str <> [] ->
  parseTRPrice str
  = match integer_digits str ++ fraction_digits str with
    | [] => nan
    | ds => decimal_value (digits_value ds)
              (- Z.of_nat (length (fraction_digits str)))
    end.
Proof.
  intros Hne. unfold parseTRPrice.
  destruct str as [|c0 r0] eqn:Estr; [contradiction|]. rewrite <- Estr. clear Hne.
  rewrite (span_app is_digit (strip_non_price str)).
  rewrite (span_strip str). cbn [fst snd].
  rewrite replace_first_digits by apply filter_digit_Forall.
  unfold integer_digits, fraction_digits, after_comma.
  destruct (snd (span not_comma str)) as [|c r] eqn:Es.
  - cbn [replace_first].
    rewrite (parseFloat_price_text (List.filter is_digit (before_comma str))
               [] false); [|apply filter_digit_Forall|constructor].
    reflexivity.
  - cbn [replace_first]. rewrite N.eqb_refl.
    rewrite (parseFloat_price_text (List.filter is_digit (before_comma str))
               (strip_non_price r) true);
      [|apply filter_digit_Forall|apply strip_non_price_kept].
    cbn zeta. rewrite (span_strip r). reflexivity.
Qed.

End PriceParser.

(** C2, as stated, fails twice: a text without digits parses to NaN, not 0,
    and a dot is dropped, not kept, so that "1.5" is read as 15. *)
Lemma parseTRPrice_differs :
  parseTRPrice (js "abc") = nan
  /\ strict_eq (parseTRPrice (js "abc")) 0 = false
  /\ claimed_parse (js "abc") = 0%float
  /\ parseTRPrice (js "1.5") = 15%float
  /\ claimed_parse (js "1.5") = 1.5%float
  /\ strict_eq (parseTRPrice (js "1.5")) (claimed_parse (js "1.5")) = false.
Proof. vm_compute. repeat split; reflexivity. Qed.

Lemma parseTRPrice_drop (c : N) (s1 s2 : jsstring) :
  is_digit c || (c =? COMMA)%N = false -> s1 ++ s2 <> [] ->
  parseTRPrice (s1 ++ c :: s2) = parseTRPrice (s1 ++ s2).
Proof.
  intros Hc Hne. unfold parseTRPrice.
  rewrite (strip_non_price_drop c s1 s2 Hc).
  destruct (s1 ++ s2) eqn:E; [contradiction|].
  destruct (s1 ++ c :: s2) eqn:E'; [|reflexivity].
  apply app_eq_nil in E' as [_ ?]. discriminate.
Qed.

(** C2 (amended): the empty text parses to 0. In any other text only the
    digits and commas count (every other unit, a dot included, is dropped):
    when the digits before the first comma and those between the first and
    the second comma are not all missing, the result is the binary64 value
    of the decimal numeral they write, the first comma being the decimal
    point. In particular "129,99 TL" gives 129.99 and "1.299,99 TL" gives
    1299.99. *)
Theorem parseTRPrice_spec (str : jsstring) :
  parseTRPrice [] = 0%float
  /\ (str <> [] -> integer_digits str ++ fraction_digits str <> [] ->
      parseTRPrice str
      = decimal_value (digits_value (integer_digits str ++ fraction_digits str))
          (- Z.of_nat (length (fraction_digits str))))
  /\ (forall s, str ++ s <> [] ->
      parseTRPrice (str ++ DOT :: s) = parseTRPrice (str ++ s))
  /\ parseTRPrice (js "129,99 TL") = 129.99%float
  /\ parseTRPrice (js "1.299,99 TL") = 1299.99%float.
Proof.
  split; [reflexivity|]. split; [|split].
  - intros Hne Hd. rewrite (parseTRPrice_digits str Hne).
    destruct (integer_digits str ++ fraction_digits str); [contradiction|reflexivity].
  - intros s Hne. apply parseTRPrice_drop; [reflexivity|exact Hne].
  - split; vm_compute; reflexivity.
Qed.

(** Where no digit counts, the result is NaN. *)
Lemma parseTRPrice_no_digit (str : jsstring) :
  str <> [] -> integer_digits str ++ fraction_digits str = [] ->
  parseTRPrice str = nan.
Proof.
  intros Hne Hd. rewrite (parseTRPrice_digits str Hne), Hd. reflexivity.
Qed.

(* ===================================================================== *)
(** ** The persistence loop (lines 139-149) *)
(* ===================================================================== *)

Section Persistence.

(** One step of the loop, when the call resolves. *)
Lemma upsert_loop_cons (supabase : Client) (d : Product) (rest : list Product)
    (savedItems : list (option Product)) (st st' : Store) (r : Reply) :
  supabase st d = Ok (st', r) ->
  upsert_loop supabase (d :: rest) savedItems st
  = match error r, data r with
    | None, Some rows =>
        let '(c, st'', t) :=
          upsert_loop supabase rest (savedItems ++ [rows !! 0%nat]) st' in
        (c, st'', EvUpsert d :: t)
    | Some e, _ =>
        let '(c, st'', t) := upsert_loop supabase rest savedItems st' in
        (c, st'',
         EvUpsert d :: EvConsoleError (js "Supabase Error: " ++ message e) :: t)
    | None, None =>
        let '(c, st'', t) := upsert_loop supabase rest savedItems st' in
        (c, st'', EvUpsert d :: t)
    end.
Proof.
  intros H. cbn [upsert_loop]. unfold bind at 1. unfold upsert at 1. rewrite H.
  unfold bind, record_reply.
  destruct (error r) as [e|], (data r) as [rows|]; cbn;
    destruct (upsert_loop supabase rest _ st') as [[c st''] t]; reflexivity.
Qed.

(** One step of the loop, when the call throws: the loop is left. *)
Lemma upsert_loop_throw (supabase : Client) (d : Product) (rest : list Product)
    (savedItems : list (option Product)) (st : Store) (e : Error) :
  supabase st d = Throw e ->
  upsert_loop supabase (d :: rest) savedItems st = (Throw e, st, [EvUpsert d]).
Proof.
  intros H. cbn [upsert_loop]. unfold bind at 1. unfold upsert at 1. rewrite H.
  reflexivity.
Qed.


End Persistence.

(** With [.select()] a reply without [error] carries an array in [data],
    whatever rows it holds. Against a service that answers so and reports no
    error, every deal of the batch adds an entry to the saved items, a
    duplicate as well. *)
Section SelectReplies.

Variable supabase : Client.
Hypothesis resolves_with_rows :
  forall st d, exists st' rows,
    supabase st d = Ok (st', {| data := Some rows; error := None |}).

Lemma upsert_loop_counts_every_deal (deals : list Product)
    (savedItems : list (option Product)) (st : Store) :
  exists saved st' t,
    upsert_loop supabase deals savedItems st = (Ok saved, st', t)
    /\ length saved = length savedItems + length deals.
Proof.
  revert savedItems st. induction deals as [|d deals IH]; intros savedItems st.
  - exists savedItems, st, []. split; [reflexivity|simpl; lia].
  - destruct (resolves_with_rows st d) as (st1 & rows & E).
    rewrite (upsert_loop_cons _ _ _ _ _ _ _ E). cbn [error data].
    destruct (IH (savedItems ++ [rows !! 0%nat]) st1)
      as (saved & st' & t & -> & Hlen).
    eexists _, _, _. split; [reflexivity|].
    rewrite length_app in Hlen. simpl in *. lia.
Qed.

End SelectReplies.





(* ===================================================================== *)
(** ** Running the loop twice on the same deals *)
(* ===================================================================== *)

Section Idempotence.

Lemma store_after_keeps (st : Store) (deals : list Product)
    (k : jsstring * jsstring) (row : Product) :
  st !! k = Some row -> store_after st deals !! k = Some row.
Proof.
  revert st. induction deals as [|d deals IH]; intros st H; [exact H|].
  cbn [store_after foldl]. apply IH.
  destruct (st !! key_of d) eqn:E; [exact H|].
  rewrite lookup_insert_ne; [exact H|]. intros <-. congruence.
Qed.

Lemma store_after_has (st : Store) (deals : list Product) (d : Product) :
  d ∈ deals -> is_Some (store_after st deals !! key_of d).
Proof.
  revert st. induction deals as [|d' deals IH]; intros st Hin.
  - inversion Hin.
  - apply elem_of_cons in Hin as [-> | Hin]; [|apply IH; exact Hin].
    cbn [store_after foldl].
    destruct (st !! key_of d') as [row|] eqn:E.
    + exists row. apply store_after_keeps. exact E.
    + exists d'. apply store_after_keeps. apply lookup_insert_eq.
Qed.

(** Every reply of [insert_or_ignore] carries an array, so every deal adds
    one entry to the saved items: the row, or [undefined] for a deal whose
    key was there. *)
Lemma upsert_loop_insert_or_ignore (deals : list Product)
    (savedItems : list (option Product)) (st : Store) :
  exists added,
    upsert_loop insert_or_ignore deals savedItems st
    = (Ok (savedItems ++ added), store_after st deals, EvUpsert <$> deals)
    /\ length added = length deals.
Proof.
  revert savedItems st. induction deals as [|d deals IH]; intros savedItems st.
  - exists []. rewrite app_nil_r. split; reflexivity.
  - cbn [store_after foldl].
    destruct (st !! key_of d) as [row|] eqn:E.
    + destruct (IH (savedItems ++ [None]) st) as (added & Hl & Hlen).
      exists (None :: added). split; [|simpl; congruence].
      rewrite (upsert_loop_cons insert_or_ignore d deals savedItems st st
                 {| data := Some []; error := None |})
        by (unfold insert_or_ignore; rewrite E; reflexivity).
      cbn [error data]. simpl (_ !! 0%nat). rewrite Hl, <- app_assoc. reflexivity.
    + destruct (IH (savedItems ++ [Some d]) (<[key_of d := d]> st))
        as (added & Hl & Hlen).
      exists (Some d :: added). split; [|simpl; congruence].
      rewrite (upsert_loop_cons insert_or_ignore d deals savedItems st
                 (<[key_of d := d]> st) {| data := Some [d]; error := None |})
        by (unfold insert_or_ignore; rewrite E; reflexivity).
      cbn [error data]. simpl (_ !! 0%nat). rewrite Hl, <- app_assoc. reflexivity.
Qed.

(** On a table that holds the key of every deal, nothing is written and
    every deal adds [undefined] to the saved items. *)
Lemma upsert_loop_all_present (deals : list Product)
    (savedItems : list (option Product)) (st : Store) :
  (forall d, d ∈ deals -> is_Some (st !! key_of d)) ->
  upsert_loop insert_or_ignore deals savedItems st
  = (Ok (savedItems ++ replicate (length deals) None), st, EvUpsert <$> deals).
Proof.
  revert savedItems. induction deals as [|d deals IH]; intros savedItems Hall.
  - cbn. rewrite app_nil_r. reflexivity.
  - destruct (Hall d ltac:(left)) as [row E].
    rewrite (upsert_loop_cons insert_or_ignore d deals savedItems st st
               {| data := Some []; error := None |})
      by (unfold insert_or_ignore; rewrite E; reflexivity).
    cbn [error data]. simpl (_ !! 0%nat). rewrite IH by (intros d' H; apply Hall; right; exact H).
    rewrite <- app_assoc. reflexivity.
Qed.

End Idempotence.

(** C1 fails on the code. Running the loop twice on the same deals against
    the insert-or-ignore table: the second run leaves the table as the first
    one left it, yet it adds one ([undefined]) entry per deal to the saved
    items, so that its count is again the number of deals, not 0. *)
Theorem upsert_twice_counts_again (deals : list Product) (st : Store) :
  exists saved1 saved2 st1,
    upsert_loop insert_or_ignore deals [] st = (Ok saved1, st1, EvUpsert <$> deals)
    /\ upsert_loop insert_or_ignore deals [] st1 = (Ok saved2, st1, EvUpsert <$> deals)
    /\ length saved1 = length deals
    /\ length saved2 = length deals
    /\ saved2 = replicate (length deals) None.
Proof.
  destruct (upsert_loop_insert_or_ignore deals [] st) as (saved1 & H1 & Hlen).
  exists saved1, (replicate (length deals) None), (store_after st deals).
  split; [exact H1|]. split; [|split; [exact Hlen|split]].
  - rewrite upsert_loop_all_present by (intros d Hd; apply store_after_has; exact Hd).
    reflexivity.
  - apply length_replicate.
  - reflexivity.
Qed.

(** The failing run of C1: one deal, persisted twice from an empty table. *)
Example upsert_twice_deal_a :
  let first := upsert_loop insert_or_ignore [deal_a] [] ∅ in
  let second := upsert_loop insert_or_ignore [deal_a] [] (final_store first) in
  completion first = Ok [Some deal_a]
  /\ completion second = Ok [None]
  /\ final_store second = final_store first.
Proof. vm_compute. repeat split; reflexivity. Qed.

(* ===================================================================== *)
(** ** The run (lines 64-165) *)
(* ===================================================================== *)

Section Run.

Variable browser : Browser.
Variable supabase : Client.

(** The [try] block when navigation and extraction succeed. *)
Lemma try_body_extracted (platformKey : jsstring) (config : ConfigValue)
    (products : list RawItem.t) (st : Store) :
  goto browser (config_url config) = Ok tt ->
  scroll browser = Ok tt ->
  waitForTimeout browser = Ok tt ->
  extract browser (config_selector config) = Ok products ->
  try_body browser supabase platformKey config st
  = let valid := validProducts platformKey products in
    let '(c, st', t) := upsert_loop supabase valid [] st in
    (match c with
     | Ok savedItems =>
         Ok (Success {| total_found := length products;
                        filtered_count := length valid;
                        saved_count := length savedItems;
                        summary_data := take 50 valid |})
     | Throw e => Throw e
     end, st',
     [EvGoto (config_url config); EvScroll; EvWait;
      EvExtract (config_selector config)] ++ t).
Proof.
  intros Hg Hs Hw He. unfold try_body, bind, call, ret.
  rewrite Hg, Hs, Hw, He. cbn zeta.
  destruct (upsert_loop supabase _ [] st) as [[[savedItems|e] st'] t];
    cbn; rewrite ?app_nil_r; reflexivity.
Qed.

(** The run around the [try] block, when the browser starts. *)
Lemma scrape_started (platformKey : jsstring) (config : ConfigValue) (st : Store) :
  CONFIG_get platformKey = Some config ->
  launch browser = Ok tt -> newContext browser = Ok tt ->
  newPage browser = Ok tt ->
  scrape browser supabase platformKey st
  = let '(c, st', t) := try_body browser supabase platformKey config st in
    (match close browser with
     | Ok _ => match c with
               | Ok res => Ok res
               | Throw e => Ok (ErrorResult (message e))
               end
     | Throw e => Throw e
     end, st',
     [EvLaunch; EvNewContext; EvNewPage] ++ t
     ++ match c with Ok _ => [] | Throw e => [EvConsoleError (message e)] end
     ++ [EvClose]).
Proof.
  intros Hc Hl Hn Hp. unfold scrape. rewrite Hc.
  unfold bind, call, finally, try_catch. rewrite Hl, Hn, Hp.
  destruct (try_body browser supabase platformKey config st) as [[[res|e] st'] t];
    cbn; destruct (close browser); rewrite <- ?app_assoc; reflexivity.
Qed.

(** A client that always resolves lets the loop reach its end. *)
Lemma upsert_loop_total (prods : list Product)
    (savedItems : list (option Product)) (st : Store) :
  (forall st' d, exists st'' r, supabase st' d = Ok (st'', r)) ->
  exists saved st' t,
    upsert_loop supabase prods savedItems st = (Ok saved, st', t)
    /\ length saved <= length savedItems + length prods.
Proof.
  intros Hres. revert savedItems st.
  induction prods as [|d prods IH]; intros savedItems st.
  - exists savedItems, st, []. split; [reflexivity|lia].
  - destruct (Hres st d) as (st1 & r & E).
    rewrite (upsert_loop_cons _ _ _ _ _ _ _ E).
    destruct (error r) as [e|], (data r) as [rows|].
    + destruct (IH savedItems st1) as (saved & st' & t & -> & Hlen).
      eexists _, _, _. split; [reflexivity|simpl; lia].
    + destruct (IH savedItems st1) as (saved & st' & t & -> & Hlen).
      eexists _, _, _. split; [reflexivity|simpl; lia].
    + destruct (IH (savedItems ++ [rows !! 0%nat]) st1)
        as (saved & st' & t & -> & Hlen).
      eexists _, _, _. split; [reflexivity|].
      rewrite length_app in Hlen. simpl in *. lia.
    + destruct (IH savedItems st1) as (saved & st' & t & -> & Hlen).
      eexists _, _, _. split; [reflexivity|simpl; lia].
Qed.

End Run.

Lemma filter_sublist {A} (f : A -> bool) (l : list A) :
  sublist (List.filter f l) l.
Proof.
  induction l as [|x l IH]; simpl; [constructor|].
  destruct (f x); [apply sublist_skip|apply sublist_cons]; exact IH.
Qed.

(** C5: when the browser calls and every upsert call resolve, the run
    returns a summary whose [total_found] is the number of extracted items,
    whose [filtered_count] is the number of normalised items that pass the
    filter, and whose [data] is the first 50 of those, in the order of the
    extracted items. *)
Theorem scrape_summary (browser : Browser) (supabase : Client) (st : Store)
    (platformKey : jsstring) (config : ConfigValue) (products : list RawItem.t) :
  CONFIG_get platformKey = Some config ->
  launch browser = Ok tt -> newContext browser = Ok tt ->
  newPage browser = Ok tt ->
  goto browser (config_url config) = Ok tt ->
  scroll browser = Ok tt -> waitForTimeout browser = Ok tt ->
  extract browser (config_selector config) = Ok products ->
  close browser = Ok tt ->
  (forall st' d, exists st'' r, supabase st' d = Ok (st'', r)) ->
  exists s,
    completion (scrape browser supabase platformKey st) = Ok (Success s)
    /\ total_found s = length products
    /\ filtered_count s
       = length (List.filter isValid (normalize platformKey <$> products))
    /\ summary_data s
       = take 50 (List.filter isValid (normalize platformKey <$> products))
    /\ sublist (summary_data s) (normalize platformKey <$> products)
    /\ length (summary_data s) <= 50
    /\ saved_count s <= filtered_count s.
Proof.
  intros Hc Hl Hn Hp Hg Hs Hw He Hcl Hres.
  rewrite (scrape_started browser supabase platformKey config st Hc Hl Hn Hp).
  rewrite (try_body_extracted browser supabase platformKey config products st
             Hg Hs Hw He).
  cbn zeta.
  destruct (upsert_loop_total supabase (validProducts platformKey products) [] st Hres)
    as (saved & st' & t & -> & Hlen).
  rewrite Hcl. eexists. split; [reflexivity|]. cbn.
  repeat split; try reflexivity.
  - etrans; [apply sublist_take|apply filter_sublist].
  - apply firstn_le_length.
  - exact Hlen.
Qed.

Lemma scrape_summary_witness :
  exists s,
    completion (scrape (page_with [item_a; item_b]) insert_or_ignore
                  (js "trendyol") ∅) = Ok (Success s)
    /\ total_found s = 2 /\ filtered_count s = 1
    /\ summary_data s = [normalize (js "trendyol") item_a].
Proof.
  assert (Hc : CONFIG_get (js "trendyol")
               = Some (OwnEntry (mkConfig
                   (js "https://www.trendyol.com/sr?wc=103328&fl=en-cok-one-cikanlar")
                   (js ".p-card-wrppr"))))
    by (vm_compute; reflexivity).
  assert (Hres : forall st' d, exists st'' r, insert_or_ignore st' d = Ok (st'', r)).
  { intros st' d. unfold insert_or_ignore.
    destruct (st' !! key_of d); eexists _, _; reflexivity. }
  destruct (scrape_summary (page_with [item_a; item_b]) insert_or_ignore ∅
              (js "trendyol") _ [item_a; item_b] Hc eq_refl eq_refl eq_refl
              eq_refl eq_refl eq_refl eq_refl eq_refl Hres)
    as (s & Hs & Ht & Hf & Hd & _).
  exists s. split; [exact Hs|]. rewrite Ht, Hf, Hd.
  vm_compute. repeat split; reflexivity.
Defined.

(** The ways through the [try] block: which call, if any, throws first. *)
Ltac try_body_cases browser supabase platformKey config st products savedItems Eu :=
  destruct (goto browser (config_url config)) as [[]|?];
    [destruct (scroll browser) as [[]|?];
     [destruct (waitForTimeout browser) as [[]|?];
      [destruct (extract browser (config_selector config)) as [products|?];
       [destruct (upsert_loop supabase (validProducts platformKey products) [] st)
          as [[[savedItems|?] ?] ?] eqn:Eu|]|]|]|].

(** A summary is only ever built from an extraction that succeeded and a
    loop that reached its end, and its counts are those of that batch. *)
Lemma scrape_success_inv (browser : Browser) (supabase : Client) (st : Store)
    (platformKey : jsstring) (config : ConfigValue) (s : Summary) :
  CONFIG_get platformKey = Some config ->
  launch browser = Ok tt -> newContext browser = Ok tt ->
  newPage browser = Ok tt ->
  completion (scrape browser supabase platformKey st) = Ok (Success s) ->
  exists products savedItems,
    extract browser (config_selector config) = Ok products
    /\ completion (upsert_loop supabase (validProducts platformKey products) [] st)
       = Ok savedItems
    /\ s = {| total_found := length products;
              filtered_count := length (validProducts platformKey products);
              saved_count := length savedItems;
              summary_data := take 50 (validProducts platformKey products) |}.
Proof.
  intros Hc Hl Hn Hp.
  rewrite (scrape_started browser supabase platformKey config st Hc Hl Hn Hp).
  unfold try_body, bind, call, ret.
  try_body_cases browser supabase platformKey config st products savedItems Eu;
    cbn; destruct (close browser); try discriminate.
  intros [= <-]. exists products, savedItems. rewrite Eu. repeat split.
Qed.

(** Against the insert-or-ignore table every run reports as saved all the
    deals that passed the filter, new or not. *)
Lemma scrape_saved_count_insert_or_ignore (browser : Browser) (st : Store)
    (platformKey : jsstring) (config : ConfigValue) (s : Summary) :
  CONFIG_get platformKey = Some config ->
  launch browser = Ok tt -> newContext browser = Ok tt ->
  newPage browser = Ok tt ->
  completion (scrape browser insert_or_ignore platformKey st) = Ok (Success s) ->
  saved_count s = filtered_count s.
Proof.
  intros Hc Hl Hn Hp Hs.
  destruct (scrape_success_inv browser insert_or_ignore st platformKey config s
              Hc Hl Hn Hp Hs) as (products & savedItems & _ & Hloop & ->).
  destruct (upsert_loop_insert_or_ignore (validProducts platformKey products) [] st)
    as (added & Hrun & Hlen).
  rewrite Hrun in Hloop. cbn in Hloop. injection Hloop as <-. cbn. exact Hlen.
Qed.

(** The end-to-end scenario, run twice: two items found, one of them a deal,
    and one item reported as saved by the first run and by the second. *)
Example scrape_scenario_twice :
  let first := scrape (page_with [item_a; item_b]) insert_or_ignore
                 (js "trendyol") ∅ in
  let second := scrape (page_with [item_a; item_b]) insert_or_ignore
                  (js "trendyol") (final_store first) in
  completion first
  = Ok (Success (mkSummary 2 1 1 [normalize (js "trendyol") item_a]))
  /\ completion second
     = Ok (Success (mkSummary 2 1 1 [normalize (js "trendyol") item_a]))
  /\ final_store second = final_store first.
Proof. vm_compute. repeat split; reflexivity. Qed.

(* ===================================================================== *)
(** ** Failures of a run (lines 76-164) *)
(* ===================================================================== *)




(* ===================================================================== *)
(** ** Unsupported platforms (lines 64-65) *)
(* ===================================================================== *)

(** A key for which [CONFIG[platformKey]] is [undefined] is refused at once:
    no browser, no extraction, no table access. *)
Lemma scrape_unsupported (browser : Browser) (supabase : Client) (st : Store)
    (platformKey : jsstring) :
  CONFIG_get platformKey = None ->
  scrape browser supabase platformKey st
  = (Ok (ErrorResult (js "Platform not supported")), st, []).
Proof. intros H. unfold scrape. rewrite H. reflexivity. Qed.

Lemma CONFIG_get_None (platformKey : jsstring) :
  CONFIG_get platformKey = None <->
  CONFIG !! platformKey = None /\ platformKey ∉ Object_prototype.
Proof.
  unfold CONFIG_get. destruct (CONFIG !! platformKey) as [c|].
  - split; [discriminate|intros [? _]; discriminate].
  - destruct (bool_decide_reflect (platformKey ∈ Object_prototype)) as [Hin|Hnin].
    + split; [discriminate|intros [_ ?]; contradiction].
    + split; [intros _; split; [reflexivity|exact Hnin]|reflexivity].
Qed.

(** The first event of a computation that starts with a call. *)
Lemma bind_call_trace {A B} (ev : Event) (o : outcome A) (k : A -> M B)
    (st : Store) :
  exists t, trace (bind (call ev o) k st) = ev :: t.
Proof.
  unfold bind, call. destruct o as [a|e].
  - destruct (k a st) as [[r st'] t]. exists t. reflexivity.
  - exists []. reflexivity.
Qed.

(** C10 fails on the code: ["constructor"] is not a key of the configuration,
    but [CONFIG["constructor"]] is the inherited [Object] function, which is
    truthy, so the run goes on: whatever the browser and the client do, its
    first effect is to launch the browser (and, if that succeeds, it
    navigates to [undefined]). *)
Theorem scrape_inherited_key (browser : Browser) (supabase : Client) (st : Store) :
  CONFIG !! js "constructor" = None
  /\ CONFIG_get (js "constructor") = Some (Inherited (js "constructor"))
  /\ (exists t, trace (scrape browser supabase (js "constructor") st) = EvLaunch :: t)
  /\ (launch browser = Ok tt -> newContext browser = Ok tt ->
      newPage browser = Ok tt ->
      exists t, trace (scrape browser supabase (js "constructor") st)
                = EvLaunch :: EvNewContext :: EvNewPage :: EvGoto None :: t).
Proof.
  assert (Hg : CONFIG_get (js "constructor") = Some (Inherited (js "constructor")))
    by (vm_compute; reflexivity).
  split; [vm_compute; reflexivity|]. split; [exact Hg|]. split.
  - unfold scrape. rewrite Hg. apply bind_call_trace.
  - intros Hl Hn Hp.
    rewrite (scrape_started browser supabase _ _ st Hg Hl Hn Hp).
    unfold try_body. cbn [config_url].
    match goal with |- context [bind (call ?ev ?o) ?k st] =>
      destruct (bind_call_trace ev o k st) as [t Ht];
      destruct (bind (call ev o) k st) as [[c st'] t0] end.
    cbn [trace snd] in Ht. subst t0.
    eexists. cbn. reflexivity.
Qed.

(** The failing run of C10 on a page that loads. *)
Example scrape_constructor :
  trace (scrape (page_with [item_a]) insert_or_ignore (js "constructor") ∅)
  = [EvLaunch; EvNewContext; EvNewPage; EvGoto None; EvScroll; EvWait;
     EvExtract None; EvUpsert (normalize (js "constructor") item_a); EvClose]
  /\ completion (scrape (page_with [item_a]) insert_or_ignore (js "nope") ∅)
     = Ok (ErrorResult (js "Platform not supported")).
Proof. split; vm_compute; reflexivity. Qed.

(* ===================================================================== *)
(** ** Parsed prices are NaN or not below zero *)
(* ===================================================================== *)

Module ParsedNumberFacts.

Lemma iter_pos_invariant {A} (P : A -> Prop) (f : A -> A) :
  (forall x, P x -> P (f x)) ->
  forall (p : positive) (x : A), P x -> P (SpecFloat.iter_pos f p x).
Proof.
  intros Hf. induction p as [p IH|p IH|]; intros x Hx; simpl; auto.
Qed.

Lemma shr_1_nonneg (mrs : shr_record) :
  (0 <= shr_m mrs)%Z -> (0 <= shr_m (shr_1 mrs))%Z.
Proof.
  destruct mrs as [m r s]. simpl.
  destruct m as [|[p|p|]|[p|p|]]; simpl; lia.
Qed.

Lemma shr_fexp_nonneg (m e : Z) (l : location) :
  (0 <= m)%Z -> (0 <= shr_m (fst (shr_fexp prec emax m e l)))%Z.
Proof.
  intros Hm. unfold shr_fexp, shr.
  assert (H0 : (0 <= shr_m (shr_record_of_loc m l))%Z)
    by (destruct l as [|[]]; exact Hm).
  destruct (fexp prec emax (Zdigits2 m + e) - e)%Z as [|p|p]; simpl fst;
    try exact H0.
  apply iter_pos_invariant; [apply shr_1_nonneg|exact H0].
Qed.

Lemma round_nearest_even_nonneg (m : Z) (l : location) :
  (0 <= m)%Z -> (0 <= round_nearest_even m l)%Z.
Proof.
  intros Hm. destruct l as [|[]]; simpl; try lia.
  destruct (Z.even m); lia.
Qed.

(** Rounding a mantissa that is not negative never gives NaN. *)
Lemma binary_round_aux_not_nan (s : bool) (mx ex : Z) (lx : location) :
  (0 <= mx)%Z -> binary_round_aux prec emax s mx ex lx <> S754_nan.
Proof.
  intros Hm. unfold binary_round_aux.
  pose proof (shr_fexp_nonneg mx ex lx Hm) as H1.
  destruct (shr_fexp prec emax mx ex lx) as [mrs' e']. cbn [fst] in H1.
  pose proof (shr_fexp_nonneg _ e' loc_Exact
                (round_nearest_even_nonneg _ (loc_of_shr_record mrs') H1)) as H2.
  destruct (shr_fexp prec emax _ e' loc_Exact) as [mrs'' e'']. cbn [fst] in H2.
  destruct (shr_m mrs'') as [|p|p]; try discriminate; [|lia].
  destruct (e'' <=? emax - prec)%Z; discriminate.
Qed.

Lemma binary_round_not_nan (s : bool) (m : positive) (e : Z) :
  binary_round prec emax s m e <> S754_nan.
Proof.
  unfold binary_round. destruct (shl_align m e _) as [mz ez].
  apply binary_round_aux_not_nan. lia.
Qed.

Lemma binary_round_nonneg (m : positive) (e : Z) :
  sf_nonneg (binary_round prec emax false m e) = true.
Proof.
  unfold binary_round. destruct (shl_align m e _) as [mz ez].
  apply NumberFacts.binary_round_aux_nonneg.
Qed.

Lemma sf_number_nonneg_split (x : spec_float) :
  sf_number_nonneg x = true <-> sf_nonneg x = true /\ x <> S754_nan.
Proof.
  destruct x as [s|s| |s m e]; simpl; split;
    try (intros [? ?]; (assumption || congruence));
    try (intros ?; split; [assumption|discriminate]);
    try discriminate.
Qed.

(** Converting such a value to a number keeps it so. *)
Lemma SF2Prim_number_nonneg (x : spec_float) :
  sf_number_nonneg x = true -> sf_number_nonneg (Prim2SF (SF2Prim x)) = true.
Proof.
  destruct x as [s|s| |s m e]; simpl; try discriminate.
  - intros _. destruct s; reflexivity.
  - intros ->%negb_true_iff. reflexivity.
  - intros ->%negb_true_iff.
    rewrite FloatLemmas.Z_ldexp_spec, of_uint63_spec.
    assert (Hgen : forall n : Z, (0 <= n)%Z ->
              sf_number_nonneg
                (SFldexp prec emax (binary_normalize prec emax n 0 false) e) = true).
    { intros [|q|q] Hq; [reflexivity| |lia].
      cbn [binary_normalize].
      pose proof (binary_round_not_nan false q 0) as Hn.
      pose proof (binary_round_nonneg q 0) as Hs.
      destruct (binary_round prec emax false q 0) as [s'|s'| |s' m' e'];
        try contradiction; cbn [SFldexp]; try exact Hs.
      simpl in Hs. apply negb_true_iff in Hs. subst s'.
      apply sf_number_nonneg_split. split;
        [apply binary_round_nonneg|apply binary_round_not_nan]. }
    apply Hgen. apply Uint63.to_Z_bounded.
Qed.

Lemma SFdiv_finite_number_nonneg (p q : positive) :
  sf_number_nonneg (SFdiv prec emax (S754_finite false p 0) (S754_finite false q 0))
  = true.
Proof.
  apply sf_number_nonneg_split. split.
  - apply (NumberFacts.SFdiv_nonneg (S754_finite false p 0) (S754_finite false q 0));
      reflexivity.
  - cbn [SFdiv xorb]. unfold SFdiv_core_binary.
    set (m' := match _ with Z0 => _ | Zpos _ => _ | Zneg _ => _ end).
    assert (Hm' : (0 <= m')%Z).
    { subst m'. destruct (_ - _ - _)%Z; try lia. apply Z.shiftl_nonneg. lia. }
    pose proof (Z_div_mod m' (Z.pos q) ltac:(lia)) as Hdm.
    destruct (Z.div_eucl m' (Z.pos q)) as [qq r].
    apply binary_round_aux_not_nan. destruct Hdm as [Heq Hr]. nia.
Qed.

(** The number read from a decimal numeral is never NaN and never below
    zero. *)
Lemma decimal_value_number_nonneg (m : N) (x : Z) :
  sf_number_nonneg (Prim2SF (decimal_value m x)) = true.
Proof.
  unfold decimal_value. destruct m as [|p]; [reflexivity|].
  destruct (0 <=? x)%Z eqn:Ex.
  - apply SF2Prim_number_nonneg.
    assert (0 < Z.pos p * 10 ^ x)%Z
      by (apply Z.mul_pos_pos; [lia|apply Z.pow_pos_nonneg; lia]).
    destruct (Z.pos p * 10 ^ x)%Z as [|q|q] eqn:E; try lia.
    cbn [binary_normalize]. apply sf_number_nonneg_split. split;
      [apply binary_round_nonneg|apply binary_round_not_nan].
  - apply SF2Prim_number_nonneg, SFdiv_finite_number_nonneg.
Qed.

Lemma is_nan_iff (x : number) : is_nan x = true <-> Prim2SF x = S754_nan.
Proof.
  unfold is_nan. rewrite FloatAxioms.eqb_spec. unfold SFeqb.
  destruct (Prim2SF x) as [s|s| |s m e]; simpl; split; try congruence;
    try (destruct s; simpl; discriminate).
  destruct s; rewrite Z.compare_refl, Pos.compare_cont_refl; simpl; discriminate.
Qed.

End ParsedNumberFacts.

Import ParsedNumberFacts.

(* ===================================================================== *)
(** ** More on the price parser and the discount (lines 22-40, 111-128) *)
(* ===================================================================== *)

(** The parsed price, seen as a binary64 value: not below zero, and a
    number as soon as a digit counts. *)
Lemma parseTRPrice_sf_nonneg (str : jsstring) :
  sf_nonneg (Prim2SF (parseTRPrice str)) = true.
Proof.
  destruct str as [|c r] eqn:E; [reflexivity|]. rewrite <- E.
  rewrite parseTRPrice_digits by (rewrite E; discriminate).
  destruct (integer_digits str ++ fraction_digits str) as [|d ds];
    [reflexivity|].
  apply (proj1 (sf_number_nonneg_split _)), decimal_value_number_nonneg.
Qed.

Lemma parseTRPrice_digits_number (str : jsstring) :
  str <> [] -> integer_digits str ++ fraction_digits str <> [] ->
  Prim2SF (parseTRPrice str) <> S754_nan.
Proof.
  intros Hne Hd. rewrite (parseTRPrice_digits str Hne).
  destruct (integer_digits str ++ fraction_digits str) as [|d ds];
    [contradiction|].
  apply (proj1 (sf_number_nonneg_split _)), decimal_value_number_nonneg.
Qed.

(** X1: a parsed price is never below zero, whatever the text: a minus sign
    is dropped with the other units outside [0-9,]. *)
Theorem parseTRPrice_not_negative (str : jsstring) :
  lt (parseTRPrice str) 0 = false.
Proof.
  apply NumberFacts.nonneg_not_lt_zero.
  apply parseTRPrice_sf_nonneg.
Qed.

(** X2: the parsed price is NaN exactly for a non-empty text in which no
    digit counts (none before the first comma, none between the first and
    the second). *)
Theorem parseTRPrice_nan_iff (str : jsstring) :
  is_nan (parseTRPrice str) = true
  <-> str <> [] /\ integer_digits str ++ fraction_digits str = [].
Proof.
  split.
  - intros Hn%is_nan_iff. destruct str as [|c r] eqn:E; [discriminate|].
    rewrite <- E in *. assert (Hne : str <> []) by (rewrite E; discriminate).
    split; [exact Hne|].
    destruct (integer_digits str ++ fraction_digits str) as [|d ds] eqn:Ed;
      [reflexivity|].
    exfalso. apply (parseTRPrice_digits_number str Hne); [|exact Hn].
    rewrite Ed. discriminate.
  - intros [Hne Hd]. rewrite (parseTRPrice_no_digit str Hne Hd). reflexivity.
Qed.

(** For a price that is not below zero the guard [orgPrice > 0] of line 120
    follows from [orgPrice > price]. *)
Lemma gt_nonneg_pos (price orgPrice : number) :
  lt price 0 = false -> gt orgPrice price = true -> gt orgPrice 0 = true.
Proof.
  unfold lt, gt. rewrite !FloatAxioms.ltb_spec. unfold SFltb.
  change (Prim2SF 0) with (S754_zero false).
  destruct (Prim2SF price) as [s|s| |s m e], (Prim2SF orgPrice) as [s'|s'| |s' m' e'];
    simpl; try congruence;
    repeat match goal with b : bool |- _ => destruct b end; simpl; congruence.
Qed.

(** X13: on a parsed price the discount rate of the Trendyol parser
    (lines 37-40, without the guard [originalPrice > 0]) is the discount rate
    of [scrape] (lines 119-122), for every reference price. *)
Theorem parser_discountRate_agrees (str : jsstring) (originalPrice : number) :
  parser_discountRate (parser_parseTRPrice str) originalPrice
  = discountRate (parser_parseTRPrice str) originalPrice
  /\ parser_discountRate (parseTRPrice str) originalPrice
     = discountRate (parseTRPrice str) originalPrice.
Proof.
  assert (Hgen : forall price, lt price 0 = false ->
            parser_discountRate price originalPrice = discountRate price originalPrice).
  { intros price Hp. unfold parser_discountRate, discountRate, discount.
    destruct (gt originalPrice price) eqn:G; [|reflexivity].
    rewrite (gt_nonneg_pos price originalPrice Hp G). reflexivity. }
  split;
    [|apply Hgen, NumberFacts.nonneg_not_lt_zero, parseTRPrice_sf_nonneg].
  apply Hgen. destruct str as [|c r] eqn:E; [reflexivity|].
  change (parser_parseTRPrice (c :: r)) with (parseTRPrice (c :: r)).
  apply NumberFacts.nonneg_not_lt_zero, parseTRPrice_sf_nonneg.
Qed.

(** X15: on a text without dot, [cleanPrice] (lines 22-25) and the
    [parseTRPrice] of [scrape] (lines 111-114) give the same number. *)
Theorem cleanPrice_without_dot (str : jsstring) :
  DOT ∉ str -> cleanPrice str = parseTRPrice str.
Proof.
  intros Hd. unfold cleanPrice, parseTRPrice.
  assert (E : strip_non_price_dot str = strip_non_price str).
  { unfold strip_non_price_dot, strip_non_price.
    induction str as [|c r IH]; [reflexivity|].
    apply not_elem_of_cons in Hd as [Hc Hr]. cbn [List.filter].
    replace (c =? DOT)%N with false by (symmetry; apply N.eqb_neq; congruence).
    rewrite orb_false_r, (IH Hr). reflexivity. }
  rewrite E. reflexivity.
Qed.

Lemma cleanPrice_without_dot_witness :
  cleanPrice (js "129,99 TL") = parseTRPrice (js "129,99 TL")
  /\ cleanPrice (js "1.299,99 TL") = 1.299%float
  /\ parseTRPrice (js "1.299,99 TL") = 1299.99%float.
Proof.
  split; [|split; vm_compute; reflexivity].
  apply (cleanPrice_without_dot (js "129,99 TL")).
  vm_compute. intros H. repeat (apply elem_of_cons in H as [H|H]; [discriminate|]).
  inversion H.
Defined.

(* ===================================================================== *)
(** ** What passes the filter (lines 110-134) *)
(* ===================================================================== *)

(** A normalised item passes the filter only through the guard of
    line 120, with a reference price that is not zero. *)
Lemma valid_normalized_guard (platformKey : jsstring) (p : RawItem.t) :
  isValid (normalize platformKey p) = true ->
  strict_eq (parseTRPrice (RawItem.orgPriceStr p)) 0 = false
  /\ gt (parseTRPrice (RawItem.orgPriceStr p))
        (parseTRPrice (RawItem.priceStr p)) = true
  /\ gt (parseTRPrice (RawItem.orgPriceStr p)) 0 = true
  /\ gt (parseTRPrice (RawItem.priceStr p)) 0 = true.
Proof.
  intros Hv. unfold isValid in Hv.
  apply andb_true_iff in Hv as [[Hr Hp]%andb_true_iff _].
  cbn [discount_rate price original_price normalize] in *.
  set (pr := parseTRPrice (RawItem.priceStr p)) in *.
  set (po := parseTRPrice (RawItem.orgPriceStr p)) in *.
  destruct (strict_eq po 0) eqn:Ez.
  - rewrite discountRate_same in Hr. vm_compute in Hr. discriminate.
  - destruct (gt po pr && gt po 0) eqn:G.
    + apply andb_true_iff in G as [G1 G2]. repeat split; assumption.
    + rewrite (discountRate_guard_false pr po G) in Hr.
      vm_compute in Hr. discriminate.
Qed.

(** X3: a normalised item that passes the filter has a reference price
    above its price and a price above zero, and its reference price is the
    one parsed from the page (the fallback of line 117 was not taken). *)
Theorem valid_deal_prices (platformKey : jsstring) (p : RawItem.t) :
  isValid (normalize platformKey p) = true ->
  let n := normalize platformKey p in
  gt (original_price n) (price n) = true
  /\ gt (price n) 0 = true
  /\ gt (original_price n) 0 = true
  /\ original_price n = parseTRPrice (RawItem.orgPriceStr p)
  /\ strict_eq (parseTRPrice (RawItem.orgPriceStr p)) 0 = false.
Proof.
  intros Hv n. subst n.
  destruct (valid_normalized_guard platformKey p Hv) as (Hz & Hgt & Ho & Hp).
  cbn [price original_price normalize]. rewrite Hz.
  repeat split; assumption.
Qed.

Lemma valid_deal_prices_witness :
  isValid (normalize (js "trendyol") item_a) = true
  /\ gt (original_price (normalize (js "trendyol") item_a))
        (price (normalize (js "trendyol") item_a)) = true.
Proof.
  assert (H : isValid (normalize (js "trendyol") item_a) = true)
    by (vm_compute; reflexivity).
  split; [exact H|].
  exact (proj1 (valid_deal_prices (js "trendyol") item_a H)).
Defined.

(** X4: an item whose price text or reference-price text is empty, or holds
    no digit that counts, never passes the filter. *)
Theorem unpriced_item_rejected (platformKey : jsstring) (p : RawItem.t) :
  RawItem.priceStr p = []
  \/ integer_digits (RawItem.priceStr p) ++ fraction_digits (RawItem.priceStr p) = []
  \/ RawItem.orgPriceStr p = []
  \/ integer_digits (RawItem.orgPriceStr p)
     ++ fraction_digits (RawItem.orgPriceStr p) = [] ->
  isValid (normalize platformKey p) = false.
Proof.
  intros H. destruct (isValid (normalize platformKey p)) eqn:Hv; [|reflexivity].
  exfalso.
  destruct (valid_normalized_guard platformKey p Hv) as (Hz & Hgt & Ho & Hp).
  assert (Hnan : forall s, s <> [] ->
            integer_digits s ++ fraction_digits s = [] ->
            gt (parseTRPrice s) 0 = false).
  { intros s Hs Hd. apply NumberFacts.gt_nan_l.
    rewrite (parseTRPrice_no_digit s Hs Hd). reflexivity. }
  destruct H as [H|[H|[H|H]]].
  - rewrite H in Hp. vm_compute in Hp. discriminate.
  - destruct (RawItem.priceStr p) as [|c r] eqn:E;
      [vm_compute in Hp; discriminate|].
    rewrite Hnan in Hp by (assumption || discriminate). discriminate.
  - rewrite H in Hz. vm_compute in Hz. discriminate.
  - destruct (RawItem.orgPriceStr p) as [|c r] eqn:E;
      [vm_compute in Hz; discriminate|].
    rewrite Hnan in Ho by (assumption || discriminate). discriminate.
Qed.

Lemma unpriced_item_rejected_witness :
  isValid (normalize (js "trendyol") shirt_without_reference) = false.
Proof.
  apply unpriced_item_rejected. right. right. left. reflexivity.
Defined.

(* ===================================================================== *)
(** ** Identity (line 132) *)
(* ===================================================================== *)

Lemma externalId_prefix (a s : jsstring) :
  QUESTION ∉ a -> s = [] \/ (exists q, s = QUESTION :: q) ->
  externalId (a ++ s) = a.
Proof.
  intros Ha Hs. induction a as [|x a IH].
  - destruct Hs as [-> | [q ->]]; [reflexivity|].
    cbn [app]. rewrite externalId_cons, N.eqb_refl. reflexivity.
  - apply not_elem_of_cons in Ha as [Hx Ha]. cbn [app].
    rewrite externalId_cons.
    replace (x =? QUESTION)%N with false by (symmetry; apply N.eqb_neq; congruence).
    rewrite (IH Ha). reflexivity.
Qed.

(** X5: the key of a deal ignores the query string of its link: two items of
    one platform whose links are the same up to their first question mark
    get the same [(platform, external_id)] key, which is that common part;
    and taking the identifier of an identifier changes nothing. *)
Theorem same_path_same_key (platformKey a q1 q2 : jsstring) (p1 p2 : RawItem.t) :
  QUESTION ∉ a ->
  RawItem.link p1 = a ++ QUESTION :: q1 ->
  RawItem.link p2 = a \/ RawItem.link p2 = a ++ QUESTION :: q2 ->
  key_of (normalize platformKey p1) = (platformKey, a)
  /\ key_of (normalize platformKey p2) = key_of (normalize platformKey p1)
  /\ externalId (externalId (RawItem.link p1)) = externalId (RawItem.link p1).
Proof.
  intros Ha H1 H2. unfold key_of. cbn [platform external_id normalize].
  assert (E1 : externalId (RawItem.link p1) = a).
  { rewrite H1. apply externalId_prefix; [exact Ha|right; eexists; reflexivity]. }
  assert (E2 : externalId (RawItem.link p2) = a).
  { destruct H2 as [-> | ->].
    - rewrite <- (app_nil_r a) at 1. apply externalId_prefix; [exact Ha|left; reflexivity].
    - apply externalId_prefix; [exact Ha|right; eexists; reflexivity]. }
  rewrite E1, E2. repeat split.
  rewrite <- (app_nil_r a) at 1. apply externalId_prefix; [exact Ha|left; reflexivity].
Qed.

Lemma same_path_same_key_witness :
  key_of (normalize (js "trendyol") item_a_other_query)
  = key_of (normalize (js "trendyol") item_a).
Proof.
  refine (proj1 (proj2 (same_path_same_key (js "trendyol") (js "https://x/p/1")
                          (js "a=1") (js "ref=home") item_a item_a_other_query
                          _ eq_refl (or_intror eq_refl)))).
  vm_compute. intros H.
  repeat (apply elem_of_cons in H as [H|H]; [discriminate|]). inversion H.
Defined.

(* ===================================================================== *)
(** ** What a run does to the browser and to the table *)
(* ===================================================================== *)

Lemma upserted_app (t1 t2 : list Event) :
  upserted (t1 ++ t2) = upserted t1 ++ upserted t2.
Proof. apply omap_app. Qed.

Section LoopShape.

Variable supabase : Client.

(** The loop sends the products in batch order, one call each, up to the
    first call that throws; it causes no other event than these calls and
    the error logs; and when it ends normally every product was sent and at
    most one saved item was added per product. *)
Lemma upsert_loop_shape (prods : list Product)
    (savedItems : list (option Product)) (st : Store) :
  let r := upsert_loop supabase prods savedItems st in
  (exists n, upserted (trace r) = take n prods)
  /\ Forall (fun ev => inside_try ev = true) (trace r)
  /\ (forall saved, completion r = Ok saved ->
        upserted (trace r) = prods
        /\ length saved <= length savedItems + length prods).
Proof.
  revert savedItems st. induction prods as [|d prods IH]; intros savedItems st.
  - cbn. split; [exists 0; reflexivity|]. split; [constructor|].
    intros saved [= <-]. split; [reflexivity|lia].
  - destruct (supabase st d) as [[st1 r]|e] eqn:E.
    + rewrite (upsert_loop_cons _ _ _ _ _ _ _ E).
      destruct (error r) as [er|], (data r) as [rows|];
        match goal with
        | |- context [upsert_loop supabase prods ?s st1] =>
            specialize (IH s st1);
            destruct (upsert_loop supabase prods s st1) as [[c st'] t]
        end;
        cbn in IH |- *; destruct IH as ([n Hn] & Hev & Hok);
        (split; [exists (S n); cbn; rewrite Hn; reflexivity|]);
        (split; [repeat constructor; exact Hev|]);
        intros saved Hc; destruct (Hok saved Hc) as [Hu Hl];
        (split; [cbn; rewrite Hu; reflexivity|]);
        rewrite ?length_app in Hl; simpl in Hl; lia.
    + rewrite (upsert_loop_throw _ _ _ _ _ _ E). cbn.
      split; [exists 1; destruct prods; reflexivity|].
      split; [repeat constructor|]. intros saved Hc. discriminate.
Qed.

End LoopShape.

Section RunShape.

Variable browser : Browser.
Variable supabase : Client.

(** The run when the browser, its context or its page cannot be created:
    [scrape] is left at that call. *)
Lemma scrape_not_started (platformKey : jsstring) (config : ConfigValue)
    (st : Store) (e : Error) :
  CONFIG_get platformKey = Some config ->
  (launch browser = Throw e ->
   scrape browser supabase platformKey st = (Throw e, st, [EvLaunch]))
  /\ (launch browser = Ok tt -> newContext browser = Throw e ->
      scrape browser supabase platformKey st
      = (Throw e, st, [EvLaunch; EvNewContext]))
  /\ (launch browser = Ok tt -> newContext browser = Ok tt ->
      newPage browser = Throw e ->
      scrape browser supabase platformKey st
      = (Throw e, st, [EvLaunch; EvNewContext; EvNewPage])).
Proof.
  intros Hc. unfold scrape. rewrite Hc. unfold bind, call.
  repeat split.
  - intros ->. reflexivity.
  - intros -> ->. reflexivity.
  - intros -> -> ->. reflexivity.
Qed.

(** A summary is only returned by a run that found its platform and
    created its page. *)
Lemma scrape_success_started (platformKey : jsstring) (st : Store) (s : Summary) :
  completion (scrape browser supabase platformKey st) = Ok (Success s) ->
  exists config,
    CONFIG_get platformKey = Some config
    /\ launch browser = Ok tt /\ newContext browser = Ok tt
    /\ newPage browser = Ok tt.
Proof.
  destruct (CONFIG_get platformKey) as [config|] eqn:Hc;
    [|rewrite (scrape_unsupported _ _ _ _ Hc); discriminate].
  intros H. exists config. split; [reflexivity|].
  destruct (launch browser) as [[]|e1] eqn:E1;
    [|rewrite (proj1 (scrape_not_started platformKey config st e1 Hc) E1) in H;
      discriminate].
  destruct (newContext browser) as [[]|e2] eqn:E2;
    [|rewrite (proj1 (proj2 (scrape_not_started platformKey config st e2 Hc))
                 E1 E2) in H; discriminate].
  destruct (newPage browser) as [[]|e3] eqn:E3;
    [|rewrite (proj2 (proj2 (scrape_not_started platformKey config st e3 Hc))
                 E1 E2 E3) in H; discriminate].
  repeat split.
Qed.

(** The [try] block either reaches the loop, on the extracted items, or
    stops before it without any call to the storage service. *)
Lemma try_body_shape (platformKey : jsstring) (config : ConfigValue) (st : Store) :
  let r := try_body browser supabase platformKey config st in
  Forall (fun ev => inside_try ev = true) (trace r)
  /\ ((exists products,
         goto browser (config_url config) = Ok tt /\ scroll browser = Ok tt
         /\ waitForTimeout browser = Ok tt
         /\ extract browser (config_selector config) = Ok products
         /\ let l := upsert_loop supabase (validProducts platformKey products) [] st in
            final_store r = final_store l
            /\ upserted (trace r) = upserted (trace l)
            /\ (forall e, completion r = Throw e <-> completion l = Throw e))
      \/ (final_store r = st /\ upserted (trace r) = []
          /\ exists e, completion r = Throw e
               /\ (goto browser (config_url config) = Throw e
                   \/ scroll browser = Throw e
                   \/ waitForTimeout browser = Throw e
                   \/ extract browser (config_selector config) = Throw e))).
Proof.
  cbn zeta.
  destruct (goto browser (config_url config)) as [[]|eg] eqn:Eg;
    [destruct (scroll browser) as [[]|es] eqn:Es;
     [destruct (waitForTimeout browser) as [[]|ew] eqn:Ew;
      [destruct (extract browser (config_selector config)) as [products|ee] eqn:Ee
      |]|]|].
  - rewrite (try_body_extracted browser supabase platformKey config products st
               Eg Es Ew Ee). cbn zeta.
    pose proof (upsert_loop_shape supabase (validProducts platformKey products) [] st)
      as (_ & Hev & _).
    split.
    + destruct (upsert_loop supabase (validProducts platformKey products) [] st)
        as [[c st'] t].
      cbn in Hev |- *. repeat constructor. exact Hev.
    + left. exists products. do 4 (split; [first [reflexivity|assumption]|]).
      destruct (upsert_loop supabase (validProducts platformKey products) [] st)
        as [[c st'] t].
      split; [reflexivity|]. split; [reflexivity|].
      intros e. destruct c; cbn; split; congruence.
  - unfold try_body, bind, call. rewrite Eg, Es, Ew, Ee. cbn.
    split; [repeat constructor|]. right. repeat split. exists ee. auto.
  - unfold try_body, bind, call. rewrite Eg, Es, Ew. cbn.
    split; [repeat constructor|]. right. repeat split. exists ew. auto.
  - unfold try_body, bind, call. rewrite Eg, Es. cbn.
    split; [repeat constructor|]. right. repeat split. exists es. auto.
  - unfold try_body, bind, call. rewrite Eg. cbn.
    split; [repeat constructor|]. right. repeat split. exists eg. auto.
Qed.

End RunShape.

Lemma externalId_no_question (link : jsstring) : QUESTION ∉ externalId link.
Proof.
  induction link as [|x r IH]; [apply not_elem_of_nil|].
  rewrite externalId_cons. destruct (x =? QUESTION)%N eqn:E.
  - apply not_elem_of_nil.
  - apply N.eqb_neq in E. apply not_elem_of_cons. split; [congruence|exact IH].
Qed.

(** Every product the filter lets through is a normalised extracted item
    that passes [isValid]. *)
Lemma validProducts_Forall (platformKey : jsstring) (products : list RawItem.t) :
  Forall (fun p => isValid p = true /\ platform p = platformKey
                   /\ (QUESTION ∉ external_id p)
                   /\ exists raw, raw ∈ products /\ p = normalize platformKey raw)
         (validProducts platformKey products).
Proof.
  apply Forall_forall. intros p Hp. apply list_elem_of_In in Hp.
  unfold validProducts in Hp. apply List.filter_In in Hp as [Hin Hv].
  apply list_elem_of_In, list_elem_of_fmap in Hin as (raw & -> & Hraw).
  split; [exact Hv|]. split; [reflexivity|]. split.
  - cbn [external_id normalize]. apply externalId_no_question.
  - exists raw. split; [exact Hraw|reflexivity].
Qed.

(** X6: every summary a run returns, whatever the browser and the storage
    service did, has [saved_count <= filtered_count <= total_found] and at
    most 50 products in [data] (all of them when there are no more than
    50); each product of [data] passes the filter, carries the platform key
    of the request and an identifier without question mark. *)
Theorem summary_invariants (browser : Browser) (supabase : Client) (st : Store)
    (platformKey : jsstring) (s : Summary) :
  completion (scrape browser supabase platformKey st) = Ok (Success s) ->
  saved_count s <= filtered_count s
  /\ filtered_count s <= total_found s
  /\ length (summary_data s) = Nat.min 50 (filtered_count s)
  /\ Forall (fun p => isValid p = true /\ platform p = platformKey
                      /\ (QUESTION ∉ external_id p)) (summary_data s).
Proof.
  intros Hs.
  destruct (scrape_success_started browser supabase platformKey st s Hs)
    as (config & Hc & Hl & Hn & Hp).
  destruct (scrape_success_inv browser supabase st platformKey config s
              Hc Hl Hn Hp Hs) as (products & savedItems & _ & Hloop & ->).
  cbn [saved_count filtered_count total_found summary_data].
  destruct (upsert_loop_shape supabase (validProducts platformKey products) [] st)
    as (_ & _ & Hok).
  destruct (Hok savedItems Hloop) as [_ Hlen].
  split; [simpl in Hlen; lia|]. split.
  - unfold validProducts. etrans; [apply List.filter_length_le|].
    rewrite length_fmap. reflexivity.
  - split; [apply length_take|].
    apply Forall_take.
    eapply Forall_impl; [apply validProducts_Forall|].
    intros p (Hv & Hpl & Hq & _). auto.
Qed.

Lemma summary_invariants_witness :
  exists s,
    completion (scrape (page_with [item_a; item_b]) insert_or_ignore
                  (js "trendyol") ∅) = Ok (Success s)
    /\ saved_count s <= filtered_count s /\ filtered_count s <= total_found s.
Proof.
  eexists. split; [vm_compute; reflexivity|].
  match goal with |- saved_count ?s <= _ /\ _ =>
    destruct (summary_invariants (page_with [item_a; item_b]) insert_or_ignore ∅
                (js "trendyol") s) as (H1 & H2 & _)
  end; [vm_compute; reflexivity|].
  split; [exact H1|exact H2].
Defined.

(** A summary is only returned after navigation, scroll and wait went
    through. *)
Lemma scrape_success_navigated (browser : Browser) (supabase : Client)
    (st : Store) (platformKey : jsstring) (config : ConfigValue) (s : Summary) :
  CONFIG_get platformKey = Some config ->
  launch browser = Ok tt -> newContext browser = Ok tt ->
  newPage browser = Ok tt ->
  completion (scrape browser supabase platformKey st) = Ok (Success s) ->
  goto browser (config_url config) = Ok tt /\ scroll browser = Ok tt
  /\ waitForTimeout browser = Ok tt.
Proof.
  intros Hc Hl Hn Hp.
  rewrite (scrape_started browser supabase platformKey config st Hc Hl Hn Hp).
  unfold try_body, bind, call, ret.
  try_body_cases browser supabase platformKey config st products savedItems Eu;
    cbn; destruct (close browser); try discriminate; auto.
Qed.

(** X7: the storage service only ever sees products that pass the filter and
    carry the platform key of the request, each sent once and in the order
    of the extracted items; a run that returns a summary has sent them
    all. *)
Theorem only_valid_products_upserted (browser : Browser) (supabase : Client)
    (st : Store) (platformKey : jsstring) :
  let r := scrape browser supabase platformKey st in
  Forall (fun p => isValid p = true /\ platform p = platformKey) (upserted (trace r))
  /\ (upserted (trace r) = []
      \/ exists config products n,
           CONFIG_get platformKey = Some config
           /\ extract browser (config_selector config) = Ok products
           /\ upserted (trace r) = take n (validProducts platformKey products))
  /\ (forall s, completion r = Ok (Success s) ->
        length (upserted (trace r)) = filtered_count s
        /\ take 50 (upserted (trace r)) = summary_data s).
Proof.
  cbn zeta.
  assert (Hmain :
    upserted (trace (scrape browser supabase platformKey st)) = []
    \/ exists config products n,
         CONFIG_get platformKey = Some config
         /\ extract browser (config_selector config) = Ok products
         /\ upserted (trace (scrape browser supabase platformKey st))
            = take n (validProducts platformKey products)).
  { destruct (CONFIG_get platformKey) as [config|] eqn:Hc;
      [|left; rewrite (scrape_unsupported _ _ _ _ Hc); reflexivity].
    destruct (launch browser) as [[]|e1] eqn:E1;
      [|left; rewrite (proj1 (scrape_not_started browser supabase platformKey
                                config st e1 Hc) E1); reflexivity].
    destruct (newContext browser) as [[]|e2] eqn:E2;
      [|left; rewrite (proj1 (proj2 (scrape_not_started browser supabase
                                       platformKey config st e2 Hc)) E1 E2);
        reflexivity].
    destruct (newPage browser) as [[]|e3] eqn:E3;
      [|left; rewrite (proj2 (proj2 (scrape_not_started browser supabase
                                       platformKey config st e3 Hc)) E1 E2 E3);
        reflexivity].
    rewrite (scrape_started browser supabase platformKey config st Hc E1 E2 E3).
    destruct (try_body_shape browser supabase platformKey config st)
      as (_ & [(products & _ & _ & _ & He & _ & Hu & _) | (_ & Hu & _)]);
      destruct (try_body browser supabase platformKey config st) as [[c st'] t];
      cbn [trace fst snd] in Hu |- *;
      rewrite !upserted_app, Hu;
      replace (upserted (match c with
                         | Ok _ => []
                         | Throw e => [EvConsoleError (message e)]
                         end)) with (@nil Product) by (destruct c; reflexivity).
    - right.
      destruct (upsert_loop_shape supabase (validProducts platformKey products) [] st)
        as ([n Hn] & _ & _).
      exists config, products, n. split; [reflexivity|]. split; [exact He|].
      cbn. rewrite app_nil_r. exact Hn.
    - left. reflexivity. }
  split; [|split; [exact Hmain|]].
  - destruct Hmain as [-> | (config & products & n & _ & _ & ->)]; [constructor|].
    apply Forall_take.
    eapply Forall_impl; [apply validProducts_Forall|].
    intros p (Hv & Hpl & _). auto.
  - intros s Hs.
    destruct (scrape_success_started browser supabase platformKey st s Hs)
      as (config & Hc & Hl & Hn & Hp).
    destruct (scrape_success_inv browser supabase st platformKey config s
                Hc Hl Hn Hp Hs) as (products & savedItems & He & Hloop & ->).
    cbn [filtered_count summary_data].
    rewrite (scrape_started browser supabase platformKey config st Hc Hl Hn Hp).
    destruct (scrape_success_navigated browser supabase st platformKey config _
                Hc Hl Hn Hp Hs) as (Hg & Hsc & Hw).
    rewrite (try_body_extracted browser supabase platformKey config products st
               Hg Hsc Hw He). cbn zeta.
    destruct (upsert_loop_shape supabase (validProducts platformKey products) [] st)
      as (_ & _ & Hok).
    destruct (Hok savedItems Hloop) as [Hu _].
    destruct (upsert_loop supabase (validProducts platformKey products) [] st)
      as [[c st'] t].
    cbn in Hloop. subst c. cbn [trace snd fst] in Hu |- *.
    rewrite !upserted_app, Hu. cbn. rewrite !app_nil_r. split; reflexivity.
Qed.


(** X9: once the page exists, the browser is closed by every run, whatever
    happens in between, and exactly once, as the last thing the run does. *)
Theorem browser_closed_once (browser : Browser) (supabase : Client) (st : Store)
    (platformKey : jsstring) (config : ConfigValue) :
  CONFIG_get platformKey = Some config ->
  launch browser = Ok tt -> newContext browser = Ok tt ->
  newPage browser = Ok tt ->
  exists t,
    trace (scrape browser supabase platformKey st)
    = [EvLaunch; EvNewContext; EvNewPage] ++ t ++ [EvClose]
    /\ Forall (fun ev => inside_try ev = true) t.
Proof.
  intros Hc Hl Hn Hp.
  rewrite (scrape_started browser supabase platformKey config st Hc Hl Hn Hp).
  destruct (try_body_shape browser supabase platformKey config st) as [Hev _].
  destruct (try_body browser supabase platformKey config st) as [[c st'] t].
  cbn [trace snd] in Hev |- *.
  exists (t ++ match c with Ok _ => [] | Throw e => [EvConsoleError (message e)] end).
  split; [rewrite <- !app_assoc; reflexivity|].
  apply Forall_app. split; [exact Hev|]. destruct c; repeat constructor.
Qed.

(** X10: when the browser starts but its context or its page cannot be
    created, [scrape] is left with that exception and the browser is never
    closed; the table is not touched. *)
Theorem browser_not_closed (browser : Browser) (supabase : Client) (st : Store)
    (platformKey : jsstring) (config : ConfigValue) (e : Error) :
  CONFIG_get platformKey = Some config ->
  launch browser = Ok tt ->
  newContext browser = Throw e
  \/ (newContext browser = Ok tt /\ newPage browser = Throw e) ->
  let r := scrape browser supabase platformKey st in
  completion r = Throw e /\ (EvClose ∉ trace r) /\ final_store r = st.
Proof.
  intros Hc Hl H. cbn zeta.
  destruct (scrape_not_started browser supabase platformKey config st e Hc)
    as (_ & H2 & H3).
  destruct H as [Hn | [Hn Hp]].
  - rewrite (H2 Hl Hn). repeat split. cbn.
    intros Hin. repeat (apply elem_of_cons in Hin as [Hin|Hin]; [discriminate|]).
    inversion Hin.
  - rewrite (H3 Hl Hn Hp). repeat split. cbn.
    intros Hin. repeat (apply elem_of_cons in Hin as [Hin|Hin]; [discriminate|]).
    inversion Hin.
Qed.

(** X11: when navigation, scroll, wait or extraction throws, no product is
    sent to the storage service and the table is left as it was, whatever
    else happens in the run. *)
Theorem no_extraction_no_persistence (browser : Browser) (supabase : Client)
    (st : Store) (platformKey : jsstring) (config : ConfigValue) (e : Error) :
  CONFIG_get platformKey = Some config ->
  goto browser (config_url config) = Throw e
  \/ scroll browser = Throw e
  \/ waitForTimeout browser = Throw e
  \/ extract browser (config_selector config) = Throw e ->
  let r := scrape browser supabase platformKey st in
  final_store r = st /\ upserted (trace r) = []
  /\ forall s, completion r <> Ok (Success s).
Proof.
  intros Hc H. cbn zeta.
  destruct (launch browser) as [[]|e1] eqn:E1;
    [|rewrite (proj1 (scrape_not_started browser supabase platformKey
                        config st e1 Hc) E1); repeat split; discriminate].
  destruct (newContext browser) as [[]|e2] eqn:E2;
    [|rewrite (proj1 (proj2 (scrape_not_started browser supabase
                               platformKey config st e2 Hc)) E1 E2);
      repeat split; discriminate].
  destruct (newPage browser) as [[]|e3] eqn:E3;
    [|rewrite (proj2 (proj2 (scrape_not_started browser supabase
                               platformKey config st e3 Hc)) E1 E2 E3);
      repeat split; discriminate].
  rewrite (scrape_started browser supabase platformKey config st Hc E1 E2 E3).
  destruct (try_body_shape browser supabase platformKey config st)
    as (_ & [(products & Hg & Hs & Hw & He & _) | (Hst & Hu & e' & Hthrow & _)]).
  - exfalso. destruct H as [H|[H|[H|H]]]; congruence.
  - destruct (try_body browser supabase platformKey config st) as [[c st'] t].
    cbn [completion final_store trace fst snd] in *. subst c st'.
    split; [reflexivity|]. split.
    + rewrite !upserted_app, Hu. reflexivity.
    + intros s. destruct (close browser); discriminate.
Qed.

(** X12: a run has no effect at all (no browser, no storage call, the
    table untouched, 'Platform not supported' as result) exactly when
    [CONFIG[platformKey]] is [undefined], that is when the key is neither a
    platform of the table nor a property inherited from [Object.prototype];
    in every other case the first thing the run does is launch a
    browser. *)
Theorem no_effect_iff_unsupported (browser : Browser) (supabase : Client)
    (st : Store) (platformKey : jsstring) :
  let r := scrape browser supabase platformKey st in
  (trace r = [] <->
   CONFIG !! platformKey = None /\ platformKey ∉ Object_prototype)
  /\ (trace r = [] ->
      r = (Ok (ErrorResult (js "Platform not supported")), st, []))
  /\ (trace r <> [] -> exists t, trace r = EvLaunch :: t).
Proof.
  cbn zeta. rewrite <- CONFIG_get_None.
  destruct (CONFIG_get platformKey) as [config|] eqn:Hc.
  - assert (Ht : exists t, trace (scrape browser supabase platformKey st)
                           = EvLaunch :: t).
    { unfold scrape. rewrite Hc. apply bind_call_trace. }
    destruct Ht as [t Ht]. rewrite Ht.
    split; [split; discriminate|]. split; [discriminate|].
    intros _. exists t. reflexivity.
  - rewrite (scrape_unsupported browser supabase st platformKey Hc).
    split; [split; reflexivity|]. split; [reflexivity|].
    intros H. contradiction.
Qed.

(* ===================================================================== *)
(** ** From the page to the deal: extraction, normalisation, the parser *)
(* ===================================================================== *)

Lemma drop_while_app (f : N -> bool) (s r : jsstring) :
  drop_while f (s ++ r)
  = match drop_while f s with
    | [] => drop_while f r
    | u => u ++ r
    end.
Proof.
  induction s as [|c s IH]; cbn [app drop_while].
  - destruct (drop_while f r); reflexivity.
  - destruct (f c); [exact IH|reflexivity].
Qed.

Lemma drop_while_all (f : N -> bool) (s : jsstring) :
  Forall (fun c => f c = true) s -> drop_while f s = [].
Proof.
  induction 1 as [|c s Hc _ IH]; [reflexivity|]. cbn. rewrite Hc. exact IH.
Qed.

(** White space around a text does not survive [trim], and does not change
    what [trim] returns. *)
Lemma trim_pad (l s r : jsstring) :
  Forall (fun c => is_space c = true) l ->
  Forall (fun c => is_space c = true) r ->
  trim (l ++ s ++ r) = trim s.
Proof.
  intros Hl Hr. unfold trim.
  rewrite (drop_while_app is_space l), (drop_while_all _ l Hl).
  rewrite (drop_while_app is_space s).
  destruct (drop_while is_space s) as [|c u] eqn:E.
  - rewrite (drop_while_all _ r Hr). reflexivity.
  - rewrite reverse_app, (drop_while_app is_space (reverse r)).
    rewrite drop_while_all; [reflexivity|].
    apply Forall_reverse. exact Hr.
Qed.

(** X16: the title of a deal is the trimmed "brand name" text of its card;
    when the card has no brand node the title is the trimmed name, when it
    has no name node the title is the trimmed brand, and when it has neither
    the title is empty and the card is never a deal. *)
Theorem title_of_card (platformKey : jsstring) (el : Element) :
  let n := normalize platformKey (extract_item el) in
  let brand := getTxt el (js ".prdct-desc-cntnr-ttl") in
  let name := getTxt el (js ".prdct-desc-cntnr-name") in
  title n = trim (brand ++ js " " ++ name)
  /\ (el (js ".prdct-desc-cntnr-ttl") = None -> title n = trim name)
  /\ (el (js ".prdct-desc-cntnr-name") = None -> title n = trim brand)
  /\ (el (js ".prdct-desc-cntnr-ttl") = None ->
      el (js ".prdct-desc-cntnr-name") = None ->
      title n = [] /\ isValid n = false).
Proof.
  cbn zeta. cbn [title normalize extract_item RawItem.title].
  assert (Hsp : Forall (fun c => is_space c = true) (js " "))
    by (repeat constructor).
  split; [reflexivity|]. split; [|split].
  - intros Hb. unfold getTxt at 1. rewrite Hb.
    rewrite <- (trim_pad (js " ") (getTxt el (js ".prdct-desc-cntnr-name")) []
                  Hsp (Forall_nil_2 _)).
    rewrite app_nil_r. reflexivity.
  - intros Hn. unfold getTxt at 2. rewrite Hn.
    rewrite <- (trim_pad [] (getTxt el (js ".prdct-desc-cntnr-ttl")) (js " ")
                  (Forall_nil_2 _) Hsp).
    reflexivity.
  - intros Hb Hn.
    assert (Ht : trim (getTxt el (js ".prdct-desc-cntnr-ttl") ++ js " "
                       ++ getTxt el (js ".prdct-desc-cntnr-name")) = []).
    { unfold getTxt. rewrite Hb, Hn. reflexivity. }
    split; [exact Ht|].
    unfold isValid. cbn [title normalize extract_item RawItem.title].
    rewrite Ht. apply andb_false_r.
Qed.

(** X17: a card that lacks the discounted-price node or the original-price
    node is never a deal: its missing text is extracted as the empty string,
    which parses to 0. *)
Theorem card_without_price_rejected (platformKey : jsstring) (el : Element) :
  el (js ".prc-box-dscntd") = None \/ el (js ".prc-box-orgnl") = None ->
  isValid (normalize platformKey (extract_item el)) = false.
Proof.
  intros H.
  destruct (isValid (normalize platformKey (extract_item el))) eqn:Hv;
    [|reflexivity].
  exfalso.
  destruct (valid_normalized_guard platformKey (extract_item el) Hv)
    as (Hz & _ & _ & Hp).
  cbn [extract_item RawItem.priceStr RawItem.orgPriceStr] in Hz, Hp.
  unfold getTxt in Hz, Hp.
  destruct H as [H|H]; rewrite H in *.
  - vm_compute in Hp. discriminate.
  - vm_compute in Hz. discriminate.
Qed.

(** X14: on a card whose price nodes, when present, hold a non-empty text,
    and whose original price does not parse to 0, the Trendyol parser of
    [CONFIG] (lines 14-51) and the path [scrape] takes (extraction, then
    normalisation) build the same title, price, original price, discount
    rate and platform; the parser has [null] where the other path has an
    empty link or image. *)
Theorem parser_agrees_with_scrape (el : Element) :
  (forall n, el (js ".prc-box-dscntd") = Some n -> innerText n <> []) ->
  (forall n, el (js ".prc-box-orgnl") = Some n ->
     innerText n <> [] /\ strict_eq (parseTRPrice (innerText n)) 0 = false) ->
  exists r,
    trendyol_parser el = Some r
    /\ let n := normalize (js "trendyol") (extract_item el) in
       Parsed.title r = title n
       /\ Parsed.price r = price n
       /\ Parsed.original_price r = original_price n
       /\ Parsed.discount_rate r = discount_rate n
       /\ Parsed.platform r = platform n
       /\ default [] (Parsed.product_url r) = product_url n
       /\ default [] (Parsed.image_url r) = image_url n.
Proof.
  intros Hd Ho. eexists. split; [reflexivity|]. cbn zeta.
  cbn [Parsed.title Parsed.price Parsed.original_price Parsed.discount_rate
       Parsed.platform Parsed.product_url Parsed.image_url
       title price original_price discount_rate platform product_url image_url
       normalize extract_item RawItem.title RawItem.priceStr RawItem.orgPriceStr
       RawItem.link RawItem.img].
  unfold getTxt.
  assert (Hparse : forall s, s <> [] -> parser_parseTRPrice s = parseTRPrice s)
    by (intros [|c r] Hs; [contradiction|reflexivity]).
  assert (Hprice :
    parser_parseTRPrice (match el (js ".prc-box-dscntd") with
                         | Some n => innerText n
                         | None => js "0"
                         end)
    = parseTRPrice (match el (js ".prc-box-dscntd") with
                    | Some n => innerText n
                    | None => []
                    end)).
  { destruct (el (js ".prc-box-dscntd")) as [n1|] eqn:E1;
      [apply Hparse, (Hd n1 eq_refl)|vm_compute; reflexivity]. }
  assert (Horg :
    parser_parseTRPrice
      (match el (js ".prc-box-orgnl") with
       | Some n => innerText n
       | None => match el (js ".prc-box-dscntd") with
                 | Some n => innerText n
                 | None => js "0"
                 end
       end)
    = (if strict_eq (parseTRPrice (match el (js ".prc-box-orgnl") with
                                   | Some n => innerText n
                                   | None => []
                                   end)) 0
       then parseTRPrice (match el (js ".prc-box-dscntd") with
                          | Some n => innerText n
                          | None => []
                          end)
       else parseTRPrice (match el (js ".prc-box-orgnl") with
                          | Some n => innerText n
                          | None => []
                          end))).
  { destruct (el (js ".prc-box-orgnl")) as [n2|] eqn:E2.
    - destruct (Ho n2 eq_refl) as [Hne Hz]. rewrite Hz. apply Hparse, Hne.
    - rewrite Hprice. reflexivity. }
  rewrite Horg, Hprice.
  repeat split.
  - unfold parser_discountRate, discountRate, discount.
    match goal with |- context [gt ?o ?p] =>
      destruct (gt o p) eqn:G; [|reflexivity];
      rewrite (gt_nonneg_pos p o
                 (NumberFacts.nonneg_not_lt_zero _ (parseTRPrice_sf_nonneg _)) G)
    end.
    reflexivity.
  - destruct (el (js "a")); reflexivity.
  - destruct (el (js "img")); reflexivity.
Qed.

(* ===================================================================== *)
(** ** Instances *)
(* ===================================================================== *)

Lemma trendyol_config :
  CONFIG_get (js "trendyol")
  = Some (OwnEntry (mkConfig
            (js "https://www.trendyol.com/sr?wc=103328&fl=en-cok-one-cikanlar")
            (js ".p-card-wrppr"))).
Proof. vm_compute. reflexivity. Qed.


Lemma browser_closed_once_witness :
  exists t,
    trace (scrape goto_fails insert_or_ignore (js "trendyol") ∅)
    = [EvLaunch; EvNewContext; EvNewPage] ++ t ++ [EvClose]
    /\ Forall (fun ev => inside_try ev = true) t.
Proof.
  exact (browser_closed_once goto_fails insert_or_ignore ∅ (js "trendyol") _
           trendyol_config eq_refl eq_refl eq_refl).
Defined.

Lemma browser_not_closed_witness :
  let r := scrape page_fails insert_or_ignore (js "trendyol") ∅ in
  completion r
  = Throw (mkError (js "Target page, context or browser has been closed"))
  /\ (EvClose ∉ trace r) /\ final_store r = ∅.
Proof.
  exact (browser_not_closed page_fails insert_or_ignore ∅ (js "trendyol") _ _
           trendyol_config eq_refl (or_intror (conj eq_refl eq_refl))).
Defined.

Lemma no_extraction_no_persistence_witness :
  let r := scrape goto_fails insert_or_ignore (js "trendyol") ∅ in
  final_store r = ∅ /\ upserted (trace r) = []
  /\ forall s, completion r <> Ok (Success s).
Proof.
  exact (no_extraction_no_persistence goto_fails insert_or_ignore ∅
           (js "trendyol") _ (mkError (js "Timeout 60000ms exceeded"))
           trendyol_config (or_introl eq_refl)).
Defined.

Lemma card_without_price_rejected_witness :
  isValid (normalize (js "trendyol") (extract_item shirt_card_no_reference)) = false.
Proof.
  apply card_without_price_rejected. right. vm_compute. reflexivity.
Defined.

Lemma parser_agrees_with_scrape_witness :
  exists r,
    trendyol_parser shirt_card = Some r
    /\ Parsed.price r = 59.99%float
    /\ Parsed.original_price r = 129.99%float
    /\ Parsed.discount_rate r = 54%float
    /\ Parsed.discount_rate r
       = discount_rate (normalize (js "trendyol") (extract_item shirt_card)).
Proof.
  destruct (parser_agrees_with_scrape shirt_card) as (r & Hr & _ & _ & _ & Hd & _).
  - intros n H. vm_compute in H. injection H as <-. discriminate.
  - intros n H. vm_compute in H. injection H as <-.
    split; [discriminate|vm_compute; reflexivity].
  - exists r. split; [exact Hr|].
    split; [|split; [|split]]; [| | |exact Hd];
      injection Hr as <-; vm_compute; reflexivity.
Defined.
